(** * eda-cli: descriptive statistics and data-quality heuristics

    A shallow embedding of the HTTP handlers ([api.py]) and of the
    command-line entry points ([cli.py]) of the [eda_cli] package, with the
    statistical core they import from [eda_cli.core].

    Conventions.
    - A pandas [DataFrame] is an index length together with an ordered list
      of named, typed columns; a null cell is [None].
    - Floating-point numbers are read as rationals ([Q]); the square root
      used for standard deviations is a parameter.  Correlation
      coefficients are real numbers.
    - What [pandas] itself does (building a frame from JSON, reading CSV)
      is a parameter of the handlers: an outcome is either a raised Python
      exception or a frame. *)

From Stdlib Require Import List String Ascii Bool Arith ZArith QArith Lia.
From Stdlib Require Import Sorting.Sorted Permutation OrderedTypeEx.
From Stdlib Require Import Qround Reals Psatz Qreals.
Import ListNotations.

Local Open Scope string_scope.
Local Open Scope list_scope.

(** ** Tabular data *)

Inductive Column : Type :=
| NumCol (label : string) (cells : list (option Q))
| TextCol (label : string) (cells : list (option string)).

Definition col_label (c : Column) : string :=
  match c with NumCol l _ | TextCol l _ => l end.

Definition col_len (c : Column) : nat :=
  match c with
  | NumCol _ cells => List.length cells
  | TextCol _ cells => List.length cells
  end.

Record DataFrame : Type := mkFrame {
  index_len : nat;
  df_columns : list Column
}.

(** Every column has one cell per index entry. *)
Definition well_formed (df : DataFrame) : Prop :=
  Forall (fun c => col_len c = index_len df) (df_columns df).

(** [df.empty]: some axis has length zero. *)
Definition df_empty (df : DataFrame) : bool :=
  (index_len df =? 0)%nat || (List.length (df_columns df) =? 0)%nat.

(** ** JSON values and Python exceptions *)

#[warnings="-register-all"]
Inductive JValue : Type :=
| JNull
| JBool (b : bool)
| JNum (q : Q)
| JInt (z : Z)
| JStr (s : string)
| JArr (items : list JValue)
| JObj (fields : list (string * JValue)).

(** A Python [dict] with string keys, in insertion order. *)
Definition Dict (V : Type) : Type := list (string * V).

(** A raised exception: its class name and [str(e)]. *)
Record PyExc : Type := mkExc { exc_class : string; exc_str : string }.

Definition Try (A : Type) : Type := (PyExc + A)%type.

Definition try_bind {A B} (m : Try A) (k : A -> Try B) : Try B :=
  match m with inl e => inl e | inr a => k a end.

Notation "x <-! m ;; k" := (try_bind m (fun x => k))
  (at level 61, m at next level, right associativity).

(** [d[k]], raising [KeyError] on a missing key. *)
Fixpoint dict_get {V} (d : Dict V) (k : string) : Try V :=
  match d with
  | [] => inl (mkExc "KeyError" ("'" ++ k ++ "'"))
  | (k', v) :: rest => if String.eqb k' k then inr v else dict_get rest k
  end.

(** [s.endswith(suffix)] *)
Definition endswith (s suffix : string) : bool :=
  let n := String.length s in
  let m := String.length suffix in
  (m <=? n)%nat && String.eqb (substring (n - m) m s) suffix.

(** [s.endswith((s1, s2, ...))] *)
Definition endswith_any (s : string) (suffixes : list string) : bool :=
  existsb (endswith s) suffixes.

(** ** Entities of the statistical core *)

(** Modelled from the spec: the [ColumnSummary] of [eda_cli.core], which is
    not among the sources; the fields of the spec's data model, under the
    names [cli.py] reads them by. *)
Record ColumnSummary : Type := mkColumnSummary {
  name : string;
  dtype : string;
  is_numeric : bool;
  non_null : nat;
  unique : nat;
  mean : option Q;
  std : option Q
}.

(** Modelled from the spec: the [DatasetSummary] of [eda_cli.core], which
    is not among the sources. *)
Record DatasetSummary : Type := mkDatasetSummary {
  n_rows : nat;
  n_cols : nat;
  columns : list ColumnSummary
}.

(** Modelled from the spec: a row of the frame [missing_table] returns
    ([eda_cli.core] is not among the sources): the column it is indexed
    by, its count of nulls and their share of the rows. *)
Record MissingRow : Type := mkMissingRow {
  column : string;
  missing_count : nat;
  missing_share : Q
}.

(** The missing-value table, one row per column, indexed by column name. *)
Definition MissingTable : Type := list MissingRow.

Definition missing_empty (t : MissingTable) : bool :=
  match t with [] => true | _ => false end.

(** Modelled from the spec: the dictionary [compute_quality_flags]
    returns ([eda_cli.core] is not among the sources), with the keys the
    tests, [cli.py] and the spec's data model name. *)
Record QualityFlags : Type := mkQualityFlags {
  quality_score : Q;
  too_few_rows : bool;
  too_many_columns : bool;
  max_missing_share : Q;
  too_many_missing : bool;
  has_constant_columns : bool;
  has_high_cardinality_categoricals : bool;
  has_numeric_columns_with_low_variation : bool
}.

(** [flags.items()] *)
Definition flags_items (f : QualityFlags) : Dict JValue :=
  [ ("quality_score", JNum (quality_score f));
    ("too_few_rows", JBool (too_few_rows f));
    ("too_many_columns", JBool (too_many_columns f));
    ("max_missing_share", JNum (max_missing_share f));
    ("too_many_missing", JBool (too_many_missing f));
    ("has_constant_columns", JBool (has_constant_columns f));
    ("has_high_cardinality_categoricals",
       JBool (has_high_cardinality_categoricals f));
    ("has_numeric_columns_with_low_variation",
       JBool (has_numeric_columns_with_low_variation f)) ].

(** ** The statistical core ([eda_cli.core]) *)

(** The non-null cells of a column, in row order. *)
Fixpoint present {A} (cells : list (option A)) : list A :=
  match cells with
  | [] => []
  | Some v :: rest => v :: present rest
  | None :: rest => present rest
  end.

Definition count_null {A} (cells : list (option A)) : nat :=
  List.length cells - List.length (present cells).

(** The distinct values of a list, each at the place it is first seen. *)
Fixpoint distinct {A} (eqb : A -> A -> bool) (l : list A) : list A :=
  match l with
  | [] => []
  | x :: rest => x :: filter (fun y => negb (eqb x y)) (distinct eqb rest)
  end.

Definition qsum (l : list Q) : Q := fold_right Qplus 0 l.

Definition qlen {A} (l : list A) : Q := inject_Z (Z.of_nat (List.length l)).

Definition qmean (xs : list Q) : Q := qsum xs / qlen xs.

(** Sum of squared deviations from the mean. *)
Definition sum_sq_dev (xs : list Q) : Q :=
  qsum (map (fun x => (x - qmean xs) * (x - qmean xs)) xs).

Definition sample_variance (xs : list Q) : option Q :=
  if (List.length xs <? 2)%nat then None
  else Some (sum_sq_dev xs / (qlen xs - 1)).

Section Summarizer.
(** The square root of the numeric library. *)
Variable sqrtQ : Q -> Q.

(** Modelled from the spec: [summarize_dataset] of [eda_cli.core], which
    is not among the sources.  Per column: the non-null count, the number
    of distinct non-null values and, for a numeric column, the mean and
    the sample standard deviation (absent below two non-null values). *)
Definition summarize_column (c : Column) : ColumnSummary :=
  match c with
  | NumCol l cells =>
      let xs := present cells in
      {| name := l; dtype := "numeric"; is_numeric := true;
         non_null := List.length xs;
         unique := List.length (distinct Qeq_bool xs);
         mean := match xs with [] => None | _ => Some (qmean xs) end;
         std := option_map sqrtQ (sample_variance xs) |}
  | TextCol l cells =>
      let xs := present cells in
      {| name := l; dtype := "text"; is_numeric := false;
         non_null := List.length xs;
         unique := List.length (distinct String.eqb xs);
         mean := None; std := None |}
  end.

Definition summarize_dataset (df : DataFrame) : DatasetSummary :=
  {| n_rows := index_len df;
     n_cols := List.length (df_columns df);
     columns := map summarize_column (df_columns df) |}.
End Summarizer.

Definition share (k n : nat) : Q :=
  inject_Z (Z.of_nat k) / inject_Z (Z.of_nat n).

Definition col_missing (c : Column) : nat :=
  match c with
  | NumCol _ cells => count_null cells
  | TextCol _ cells => count_null cells
  end.

(** Modelled from the spec: [missing_table] of [eda_cli.core], which is not
    among the sources.  One row per column, shares over the row count; the
    empty table for a dataset without rows. *)
Definition missing_table (df : DataFrame) : MissingTable :=
  if (index_len df =? 0)%nat then []
  else map (fun c => {| column := col_label c;
                        missing_count := col_missing c;
                        missing_share := share (col_missing c) (index_len df) |})
           (df_columns df).

(** [missing_df.loc[label]] *)
Definition missing_loc (t : MissingTable) (l : string) : option MissingRow :=
  find (fun r => String.eqb (column r) l) t.

(** Modelled from the spec: the flattened per-column table of
    [flatten_summary_for_print] ([eda_cli.core] is not among the sources),
    with the missing share of each column over the row count. *)
Definition flatten_summary_for_print (s : DatasetSummary) : list (Dict JValue) :=
  map (fun c =>
         [ ("name", JStr (name c));
           ("dtype", JStr (dtype c));
           ("non_null", JInt (Z.of_nat (non_null c)));
           ("missing_share",
              JNum (if (n_rows s =? 0)%nat then 0
                    else share (n_rows s - non_null c) (n_rows s)));
           ("unique", JInt (Z.of_nat (unique c)));
           ("is_numeric", JBool (is_numeric c));
           ("mean", match mean c with Some m => JNum m | None => JNull end);
           ("std", match std c with Some m => JNum m | None => JNull end) ])
      (columns s).

(** *** Correlation *)

(** Modelled from the spec: the frame [correlation_matrix] returns
    ([eda_cli.core] is not among the sources).  A square matrix of
    coefficients over the numeric columns; an undefined coefficient (NaN)
    is [None]. *)
Record CorrMatrix : Type := mkCorr {
  corr_labels : list string;
  corr_rows : list (list (option R))
}.

(** [corr_df.empty] *)
Definition corr_empty (m : CorrMatrix) : bool :=
  match corr_labels m with [] => true | _ => false end.

Definition corr_at (m : CorrMatrix) (i j : nat) : option (option R) :=
  match nth_error (corr_rows m) i with
  | Some row => nth_error row j
  | None => None
  end.

(** The rows in which both columns have a value. *)
Fixpoint complete_pairs (xs ys : list (option Q)) : list (Q * Q) :=
  match xs, ys with
  | Some x :: xs', Some y :: ys' => (x, y) :: complete_pairs xs' ys'
  | _ :: xs', _ :: ys' => complete_pairs xs' ys'
  | _, _ => []
  end.

Definition co_dev (ps : list (Q * Q)) : Q :=
  let ma := qmean (map fst ps) in
  let mb := qmean (map snd ps) in
  qsum (map (fun p => (fst p - ma) * (snd p - mb)) ps).

(** Pearson's coefficient over the pairwise-complete rows: the
    co-deviation over the root of the product of the squared deviations,
    undefined when that product is not positive. *)
Definition pearson (xs ys : list (option Q)) : option R :=
  let ps := complete_pairs xs ys in
  let va := sum_sq_dev (map fst ps) in
  let vb := sum_sq_dev (map snd ps) in
  if Qle_bool (va * vb) 0 then None
  else Some (Q2R (co_dev ps) / sqrt (Q2R (va * vb)))%R.

(** The numeric columns of a frame, as label and cells. *)
Fixpoint numeric_columns (cs : list Column) : list (string * list (option Q)) :=
  match cs with
  | [] => []
  | NumCol l cells :: rest => (l, cells) :: numeric_columns rest
  | TextCol _ _ :: rest => numeric_columns rest
  end.

(** Modelled from the spec: [correlation_matrix] of [eda_cli.core], which
    is not among the sources.  Pairwise Pearson correlation over the
    numeric columns; the empty matrix below two numeric columns. *)
Definition correlation_matrix (df : DataFrame) : CorrMatrix :=
  let nums := numeric_columns (df_columns df) in
  if (List.length nums <? 2)%nat then {| corr_labels := []; corr_rows := [] |}
  else {| corr_labels := map fst nums;
          corr_rows :=
            map (fun a => map (fun b => pearson (snd a) (snd b)) nums) nums |}.

(** *** Top categories *)

(** [count_of v l]: how often [v] occurs in [l]. *)
Definition count_of (v : string) (l : list string) : nat :=
  count_occ string_dec l v.

(** Position of the first occurrence of [v] in [l] ([length l] if none). *)
Fixpoint first_seen (v : string) (l : list string) : nat :=
  match l with
  | [] => 0
  | x :: rest => if String.eqb x v then 0 else S (first_seen v rest)
  end.

(** Each distinct value with its frequency, in first-seen order. *)
Definition value_counts (vals : list string) : list (string * nat) :=
  map (fun v => (v, count_of v vals)) (distinct String.eqb vals).

(** Stable insertion by descending frequency: the new entry goes before
    the first entry that is not more frequent. *)
Fixpoint insert_desc (x : string * nat) (l : list (string * nat)) :
  list (string * nat) :=
  match l with
  | [] => [x]
  | y :: rest =>
      if (snd y <=? snd x)%nat then x :: y :: rest
      else y :: insert_desc x rest
  end.

Definition sort_desc (l : list (string * nat)) : list (string * nat) :=
  fold_right insert_desc [] l.

Definition top_values (top_k : Z) (cells : list (option string)) :
  list (string * nat) :=
  firstn (Z.to_nat top_k) (sort_desc (value_counts (present cells))).

(** The value of row [a] is first seen in [vals] before that of [b]. *)
Definition earlier (vals : list string) (a b : string * nat) : Prop :=
  (first_seen (fst a) vals < first_seen (fst b) vals)%nat.

(** [ranked vals a b]: row [a] goes before row [b], being more frequent,
    or as frequent and first seen earlier in [vals]. *)
Definition ranked (vals : list string) (a b : string * nat) : Prop :=
  (snd b < snd a)%nat \/ (snd a = snd b /\ earlier vals a b).

Fixpoint text_columns (cs : list Column) : list (string * list (option string)) :=
  match cs with
  | [] => []
  | TextCol l cells :: rest => (l, cells) :: text_columns rest
  | NumCol _ _ :: rest => text_columns rest
  end.

Definition cap {A} (max_columns : option nat) (l : list A) : list A :=
  match max_columns with Some n => firstn n l | None => l end.

(** Modelled from the spec: the result of [top_categories]
    ([eda_cli.core] is not among the sources): per column label, its
    table of [(value, frequency)] rows. *)
Definition TopCategories : Type := Dict (list (string * nat)).

(** Modelled from the spec: [top_categories] of [eda_cli.core], which is
    not among the sources.  For each non-numeric column, up to
    [max_columns] of them, the [top_k] most frequent non-null values;
    a column without a non-null value is left out. *)
Definition top_categories (df : DataFrame) (max_columns : option nat)
    (top_k : Z) : TopCategories :=
  map (fun c => (fst c, top_values top_k (snd c)))
      (filter (fun c => negb (List.length (present (snd c)) =? 0)%nat)
              (cap max_columns (text_columns (df_columns df)))).

(** *** Quality flags *)

(** Modelled from the spec: the configurable thresholds of the scorer and
    its per-flag penalty, whose values [eda_cli.core] (not among the
    sources) fixes. *)
Record QualityConfig : Type := mkQualityConfig {
  min_rows : nat;
  max_cols : nat;
  max_missing : Q;
  penalty : Q
}.

Definition HIGH_CARDINALITY_THRESHOLD : nat := 50.
Definition LOW_VARIATION_THRESHOLD : Q := 1 # 1000000.

Definition Qltb (a b : Q) : bool := negb (Qle_bool b a).

Definition is_constant (c : ColumnSummary) : bool :=
  (0 <? non_null c)%nat && (unique c =? 1)%nat.

Definition is_high_cardinality (c : ColumnSummary) : bool :=
  negb (is_numeric c) && (0 <? non_null c)%nat
  && (HIGH_CARDINALITY_THRESHOLD <? unique c)%nat.

Definition is_low_variation (c : ColumnSummary) : bool :=
  is_numeric c && (1 <? non_null c)%nat
  && match std c with
     | Some s => Qltb s LOW_VARIATION_THRESHOLD
     | None => false
     end.

Definition Qmax (a b : Q) : Q := if Qle_bool a b then b else a.

Definition max_share (t : MissingTable) : Q :=
  fold_right (fun r acc => Qmax (missing_share r) acc) 0 t.

(** One decrement of the running score per triggered flag. *)
Definition decrement (p : Q) (score : Q) (flag : bool) : Q :=
  if flag then score - p else score.

Section Scorer.
Variable cfg : QualityConfig.

(** Modelled from the spec: [compute_quality_flags] of [eda_cli.core],
    which is not among the sources.  Six independent checks; the score
    starts at 1, loses the penalty once per triggered flag and is floored
    at 0. *)
Definition compute_quality_flags (summary : DatasetSummary)
    (missing_df : MissingTable) : QualityFlags :=
  let few := (n_rows summary <? min_rows cfg)%nat in
  let many := (max_cols cfg <? n_cols summary)%nat in
  let top := max_share missing_df in
  let miss := Qltb (max_missing cfg) top in
  let const := existsb is_constant (columns summary) in
  let card := existsb is_high_cardinality (columns summary) in
  let lowv := existsb is_low_variation (columns summary) in
  let score :=
    fold_left (decrement (penalty cfg)) [few; many; miss; const; card; lowv] 1 in
  {| quality_score := Qmax 0 score;
     too_few_rows := few;
     too_many_columns := many;
     max_missing_share := top;
     too_many_missing := miss;
     has_constant_columns := const;
     has_high_cardinality_categoricals := card;
     has_numeric_columns_with_low_variation := lowv |}.
End Scorer.

(** The six boolean flags of a result. *)
Definition boolean_flags (f : QualityFlags) : list bool :=
  [ too_few_rows f; too_many_columns f; too_many_missing f;
    has_constant_columns f; has_high_cardinality_categoricals f;
    has_numeric_columns_with_low_variation f ].

Definition triggered (f : QualityFlags) : nat :=
  List.length (filter (fun b => b) (boolean_flags f)).

(** *** The interface the handlers and commands import *)

Record Core : Type := mkCore {
  core_summarize_dataset : DataFrame -> DatasetSummary;
  core_flatten_summary_for_print : DatasetSummary -> list (Dict JValue);
  core_missing_table : DataFrame -> MissingTable;
  core_correlation_matrix : DataFrame -> CorrMatrix;
  core_top_categories : DataFrame -> option nat -> Z -> TopCategories;
  core_compute_quality_flags : DatasetSummary -> MissingTable -> QualityFlags
}.

(** The core as the spec describes it. *)
Definition spec_core (sqrtQ : Q -> Q) (cfg : QualityConfig) : Core :=
  {| core_summarize_dataset := summarize_dataset sqrtQ;
     core_flatten_summary_for_print := flatten_summary_for_print;
     core_missing_table := missing_table;
     core_correlation_matrix := correlation_matrix;
     core_top_categories := top_categories;
     core_compute_quality_flags := compute_quality_flags cfg |}.

(** What the handlers use of pandas. *)
Record Pandas : Type := mkPandas {
  pd_DataFrame : JValue -> Try DataFrame;
  pd_read_csv : list Byte.byte -> string -> string -> Try DataFrame
}.

(** ** The HTTP API ([api.py]) *)

Inductive HttpResult : Type :=
| JSONResponse (content : JValue)
| HTTPException (status_code : Z) (detail : string).

(** The status the client sees. *)
Definition http_status (r : HttpResult) : Z :=
  match r with
  | JSONResponse _ => 200
  | HTTPException code _ => code
  end.

Definition returns_flags (r : HttpResult) : bool :=
  match r with JSONResponse _ => true | HTTPException _ _ => false end.

Section Api.
Variable pd : Pandas.
Variable core : Core.

(** The common tail of both handlers: summary, missing table, flags. *)
Definition quality_response (df : DataFrame) : HttpResult :=
  let summary := core_summarize_dataset core df in
  let missing_df := core_missing_table core df in
  let flags := core_compute_quality_flags core summary missing_df in
  JSONResponse (JObj (flags_items flags)).

(** [POST /quality] *)
Definition quality_from_dataframe (data : Dict JValue) : HttpResult :=
  match (cols <-! dict_get data "columns" ;; pd_DataFrame pd cols) with
  | inl e => HTTPException 400 ("Invalid input data: " ++ exc_str e)
  | inr df =>
      if df_empty df then HTTPException 400 "Empty dataset"
      else quality_response df
  end.

(** An uploaded file: its name and what [await file.read()] gives. *)
Record UploadFile : Type := mkUpload {
  filename : string;
  read : Try (list Byte.byte)
}.

(** [POST /quality-from-csv] *)
Definition quality_from_csv (file : UploadFile) : HttpResult :=
  if negb (endswith_any (filename file) [".csv"; ".txt"])
  then HTTPException 400 "Only CSV files are allowed"
  else
    match (contents <-! read file ;; pd_read_csv pd contents "," "utf-8") with
    | inl e => HTTPException 400 ("Failed to parse CSV: " ++ exc_str e)
    | inr df =>
        if df_empty df then HTTPException 400 "Empty dataset"
        else quality_response df
    end.
End Api.

(** The two POST routes and their bodies. *)
Inductive Request : Type :=
| PostQuality (data : Dict JValue)
| PostQualityFromCsv (file : UploadFile).

(** The frame a request's input gives, or the exception raised on the way. *)
Definition parsed (pd : Pandas) (req : Request) : Try DataFrame :=
  match req with
  | PostQuality data => cols <-! dict_get data "columns" ;; pd_DataFrame pd cols
  | PostQualityFromCsv file =>
      contents <-! read file ;; pd_read_csv pd contents "," "utf-8"
  end.

Definition handle (pd : Pandas) (core : Core) (req : Request) : HttpResult :=
  match req with
  | PostQuality data => quality_from_dataframe pd core data
  | PostQualityFromCsv file => quality_from_csv pd core file
  end.

(** ** The command line ([cli.py]) *)

(** A [pathlib.Path]: a root given as text, extended by [/]. *)
Inductive Path : Type :=
| PathOf (s : string)
| PathJoin (p : Path) (child : string).

Fixpoint path_eqb (p q : Path) : bool :=
  match p, q with
  | PathOf a, PathOf b => String.eqb a b
  | PathJoin p' a, PathJoin q' b => String.eqb a b && path_eqb p' q'
  | _, _ => false
  end.

(** What a written file holds.  The text of [report.md] is kept as its
    title only. *)
Inductive Artifact : Type :=
| SummaryCsv (t : list (Dict JValue))
| MissingCsv (t : MissingTable)
| CorrelationCsv (m : CorrMatrix)
| JsonFile (v : JValue)
| MarkdownFile (title : string).

Inductive Analyzer : Type :=
| SummarizeDataset | FlattenSummaryForPrint | MissingTableOf
| CorrelationMatrixOf | TopCategoriesOf | ComputeQualityFlags.

(** The functions imported from [eda_cli.viz]. *)
Inductive Viz : Type :=
| SaveTopCategoriesTables | PlotCategoricalBars | PlotHistogramsPerColumn
| PlotMissingMatrix | PlotCorrelationHeatmap.

Inductive Printed : Type :=
| PText (s : string)
| PCount (caption : string) (n : nat)
| PTable (t : list (Dict JValue))
| PPath (caption : string) (p : Path).

(** The observable steps of a command, in the order they happen.
    [Mkdir p] is the call [p.mkdir(parents=True, exist_ok=True)]: which
    directories it creates ([p] and its missing ancestors, none when [p]
    is there already, some of them even when it raises) is left to the
    file system. *)
Inductive Event : Type :=
| Mkdir (p : Path)
| Analyze (a : Analyzer)
| WriteFile (p : Path) (content : Artifact)
| CallViz (f : Viz) (target : Path)
| Echo (out : Printed).

Inductive CliError : Type :=
| BadParameter (message : string)
| Uncaught (e : PyExc).

(** A command: the events so far and either an error or a value. *)
Definition Cmd (A : Type) : Type := (list Event * (CliError + A))%type.

Definition ret {A} (a : A) : Cmd A := ([], inr a).
Definition raise {A} (e : CliError) : Cmd A := ([], inl e).
Definition emit (e : Event) : Cmd unit := ([e], inr tt).

Definition bind {A B} (m : Cmd A) (k : A -> Cmd B) : Cmd B :=
  match snd m with
  | inl e => (fst m, inl e)
  | inr a => (fst m ++ fst (k a), snd (k a))
  end.

Notation "x <- m ;; k" := (bind m (fun x => k))
  (at level 61, m at next level, right associativity).
Notation "m ;;; k" := (bind m (fun _ => k))
  (at level 61, right associativity).

Definition when (b : bool) (m : Cmd unit) : Cmd unit :=
  if b then m else ret tt.

(** A call into the core: observable, and total. *)
Definition analyze {A} (a : Analyzer) (v : A) : Cmd A :=
  emit (Analyze a) ;;; ret v.

(** The file system, [pathlib] and the CSV reader as a command sees them:
    [path.exists()], which can itself raise, [str(path)], [pd.read_csv]
    and [path.mkdir(parents=True, exist_ok=True)]. *)
Record World : Type := mkWorld {
  path_exists : Path -> Try bool;
  path_text : Path -> string;
  read_csv : Path -> string -> string -> Try DataFrame;
  mkdir : Path -> Try unit
}.

Section Cli.
Variable world : World.
Variable core : Core.

Definition _load_csv (path : Path) (sep encoding : string) : Cmd DataFrame :=
  match path_exists world path with
  | inl e => raise (Uncaught e)
  | inr found =>
      if negb found
      then raise (BadParameter
                    ("Файл '" ++ path_text world path ++ "' не найден"))
      else
        match read_csv world path sep encoding with
        | inr df => ret df
        | inl exc =>
            raise (BadParameter ("Не удалось прочитать CSV: " ++ exc_str exc))
        end
  end.

Definition overview (path sep encoding : string) : Cmd unit :=
  df <- _load_csv (PathOf path) sep encoding ;;
  summary <- analyze SummarizeDataset (core_summarize_dataset core df) ;;
  summary_df <- analyze FlattenSummaryForPrint
                  (core_flatten_summary_for_print core summary) ;;
  emit (Echo (PCount "Строк" (n_rows summary))) ;;;
  emit (Echo (PCount "Столбцов" (n_cols summary))) ;;;
  emit (Echo (PText "Колонки:")) ;;;
  emit (Echo (PTable summary_df)).
End Cli.

(** The options of [report], under their names in the source. *)
Record ReportArgs : Type := mkReportArgs {
  path : string;
  out_dir : string;
  sep : string;
  encoding : string;
  max_hist_columns : Z;
  top_k_categories : Z;
  title : string;
  min_missing_share : Q;
  json_summary : bool
}.

Definition default_args (p : string) : ReportArgs :=
  {| path := p; out_dir := "reports"; sep := ","; encoding := "utf-8";
     max_hist_columns := 6; top_k_categories := 5; title := "EDA-отчёт";
     min_missing_share := 1 # 10; json_summary := false |}.

(** [round(x, 4)]: to the nearest multiple of 1/10000, ties to even. *)
Definition round4 (x : Q) : Q :=
  let scaled := x * 10000 in
  let lo := Qfloor scaled in
  let frac := scaled - inject_Z lo in
  let up :=
    if Qltb (1 # 2) frac then true
    else if Qltb frac (1 # 2) then false
    else Z.odd lo in
  inject_Z (if up then lo + 1 else lo) / 10000.

(** A Python [set] of strings: a list without repetition. *)
Definition set_update (s : list string) (l : list string) : list string :=
  fold_left (fun acc x => if existsb (String.eqb x) acc then acc else x :: acc)
            l s.

Fixpoint insert_sorted (x : string) (l : list string) : list string :=
  match l with
  | [] => [x]
  | y :: rest => if String.leb x y then x :: y :: rest
                 else y :: insert_sorted x rest
  end.

(** [sorted(s)] *)
Definition sorted (s : list string) : list string :=
  fold_right insert_sorted [] s.

Definition problematic_missing_cols (missing_df : MissingTable)
    (threshold : Q) : list string :=
  if negb (missing_empty missing_df)
  then map column
         (filter (fun r => Qle_bool threshold (missing_share r)) missing_df)
  else [].

Definition constant_cols (summary : DatasetSummary) : list string :=
  map name
    (filter (fun col => (unique col =? 1)%nat && (0 <? non_null col)%nat)
            (columns summary)).

Definition high_card_cols (summary : DatasetSummary) : list string :=
  map name
    (filter (fun col => negb (is_numeric col) && (50 <? unique col)%nat
                        && (0 <? non_null col)%nat)
            (columns summary)).

Definition low_var_cols (summary : DatasetSummary) : list string :=
  map name
    (filter (fun col =>
               is_numeric col
               && match std col with
                  | Some s => Qltb s (1 # 1000000)
                  | None => false
                  end
               && (1 <? non_null col)%nat)
            (columns summary)).

Definition problematic_columns (summary : DatasetSummary)
    (missing_df : MissingTable) (threshold : Q) : list string :=
  let s0 := set_update [] (problematic_missing_cols missing_df threshold) in
  let s1 := set_update s0 (constant_cols summary) in
  let s2 := set_update s1 (high_card_cols summary) in
  let s3 := set_update s2 (low_var_cols summary) in
  sorted s3.

Definition json_summary_data (summary : DatasetSummary)
    (quality_flags : QualityFlags) (problematic : list string) : JValue :=
  JObj
    [ ("n_rows", JInt (Z.of_nat (n_rows summary)));
      ("n_cols", JInt (Z.of_nat (n_cols summary)));
      ("quality_score", JNum (round4 (quality_score quality_flags)));
      ("problematic_columns", JArr (map JStr problematic));
      ("flags",
         JObj (filter
                 (fun kv =>
                    negb (existsb (String.eqb (fst kv))
                            ["quality_score"; "max_missing_share"]))
                 (flags_items quality_flags))) ].

Section Report.
Variable world : World.
Variable core : Core.

(** [report]: the writes are taken to succeed; creating the output
    directory and loading the input can fail. *)
Definition report (a : ReportArgs) : Cmd unit :=
  let out_root := PathOf (out_dir a) in
  emit (Mkdir out_root) ;;;
  match mkdir world out_root with
  | inl e => raise (Uncaught e)
  | inr _ => ret tt
  end ;;;
  df <- _load_csv world (PathOf (path a)) (sep a) (encoding a) ;;
  summary <- analyze SummarizeDataset (core_summarize_dataset core df) ;;
  summary_df <- analyze FlattenSummaryForPrint
                  (core_flatten_summary_for_print core summary) ;;
  missing_df <- analyze MissingTableOf (core_missing_table core df) ;;
  corr_df <- analyze CorrelationMatrixOf (core_correlation_matrix core df) ;;
  top_cats <- analyze TopCategoriesOf
                (core_top_categories core df None (top_k_categories a)) ;;
  quality_flags <- analyze ComputeQualityFlags
                     (core_compute_quality_flags core summary missing_df) ;;
  let problematic :=
    problematic_columns summary missing_df (min_missing_share a) in
  emit (WriteFile (PathJoin out_root "summary.csv") (SummaryCsv summary_df)) ;;;
  when (negb (missing_empty missing_df))
    (emit (WriteFile (PathJoin out_root "missing.csv")
             (MissingCsv missing_df))) ;;;
  when (negb (corr_empty corr_df))
    (emit (WriteFile (PathJoin out_root "correlation.csv")
             (CorrelationCsv corr_df))) ;;;
  emit (CallViz SaveTopCategoriesTables (PathJoin out_root "top_categories")) ;;;
  emit (CallViz PlotCategoricalBars out_root) ;;;
  when (json_summary a)
    (emit (WriteFile (PathJoin out_root "summary.json")
             (JsonFile (json_summary_data summary quality_flags problematic)))) ;;;
  let md_path := PathJoin out_root "report.md" in
  emit (WriteFile md_path (MarkdownFile (title a))) ;;;
  emit (CallViz PlotHistogramsPerColumn out_root) ;;;
  emit (CallViz PlotMissingMatrix (PathJoin out_root "missing_matrix.png")) ;;;
  emit (CallViz PlotCorrelationHeatmap
          (PathJoin out_root "correlation_heatmap.png")) ;;;
  emit (Echo (PPath "Отчёт сгенерирован в каталоге" out_root)) ;;;
  emit (Echo (PPath "- Основной markdown" md_path)) ;;;
  emit (Echo (PText "- Табличные файлы: summary.csv, missing.csv, correlation.csv, top_categories/*.csv")) ;;;
  emit (Echo (PText "- Графики: hist_*.png, missing_matrix.png, correlation_heatmap.png")).
End Report.

(** The paths written by a run, in order. *)
Fixpoint written (t : list Event) : list Path :=
  match t with
  | [] => []
  | WriteFile p _ :: rest => p :: written rest
  | _ :: rest => written rest
  end.


(** The analyzers called by a run, in order. *)
Fixpoint analyzed (t : list Event) : list Analyzer :=
  match t with
  | [] => []
  | Analyze a :: rest => a :: analyzed rest
  | _ :: rest => analyzed rest
  end.

(** The content written to a path, if any (the last write wins). *)
Fixpoint content_at (t : list Event) (p : Path) : option Artifact :=
  match t with
  | [] => None
  | WriteFile q c :: rest =>
      match content_at rest p with
      | Some c' => Some c'
      | None => if path_eqb p q then Some c else None
      end
  | _ :: rest => content_at rest p
  end.


(** The input cannot be loaded: [exists()] reports no such path, or the
    path is there and the reader raises. *)
Definition load_fails (world : World) (p : Path) (sep encoding : string) : Prop :=
  path_exists world p = inr false
  \/ (path_exists world p = inr true
      /\ exists exc, read_csv world p sep encoding = inl exc).

(** The columns the report counts as problematic, one predicate per
    criterion. *)
Definition missing_over (missing_df : MissingTable) (threshold : Q)
    (c : string) : Prop :=
  exists r, In r missing_df /\ column r = c /\ threshold <= missing_share r.

Definition constant_in (summary : DatasetSummary) (c : string) : Prop :=
  exists col, In col (columns summary) /\ name col = c
              /\ (0 < non_null col)%nat /\ unique col = 1%nat.

Definition high_cardinality_in (summary : DatasetSummary) (c : string) : Prop :=
  exists col, In col (columns summary) /\ name col = c
              /\ is_numeric col = false
              /\ (50 < unique col)%nat /\ (0 < non_null col)%nat.

Definition low_variation_in (summary : DatasetSummary) (c : string) : Prop :=
  exists col, In col (columns summary) /\ name col = c
              /\ is_numeric col = true
              /\ (exists s, std col = Some s /\ s < 1 # 1000000)
              /\ (1 < non_null col)%nat.

(** The events of a [report] run whose input loaded as [df], written out
    in full. *)
Definition loaded_run (core : Core) (a : ReportArgs) (df : DataFrame) :
  list Event :=
  let out_root := PathOf (out_dir a) in
  let summary := core_summarize_dataset core df in
  let missing_df := core_missing_table core df in
  let corr_df := core_correlation_matrix core df in
  let quality_flags := core_compute_quality_flags core summary missing_df in
  [ Mkdir out_root;
    Analyze SummarizeDataset; Analyze FlattenSummaryForPrint;
    Analyze MissingTableOf; Analyze CorrelationMatrixOf;
    Analyze TopCategoriesOf; Analyze ComputeQualityFlags;
    WriteFile (PathJoin out_root "summary.csv")
      (SummaryCsv (core_flatten_summary_for_print core summary)) ]
  ++ (if missing_empty missing_df then []
      else [WriteFile (PathJoin out_root "missing.csv") (MissingCsv missing_df)])
  ++ (if corr_empty corr_df then []
      else [WriteFile (PathJoin out_root "correlation.csv")
              (CorrelationCsv corr_df)])
  ++ [ CallViz SaveTopCategoriesTables (PathJoin out_root "top_categories");
       CallViz PlotCategoricalBars out_root ]
  ++ (if json_summary a
      then [WriteFile (PathJoin out_root "summary.json")
              (JsonFile
                 (json_summary_data summary quality_flags
                    (problematic_columns summary missing_df
                       (min_missing_share a))))]
      else [])
  ++ [ WriteFile (PathJoin out_root "report.md") (MarkdownFile (title a));
       CallViz PlotHistogramsPerColumn out_root;
       CallViz PlotMissingMatrix (PathJoin out_root "missing_matrix.png");
       CallViz PlotCorrelationHeatmap
         (PathJoin out_root "correlation_heatmap.png");
       Echo (PPath "Отчёт сгенерирован в каталоге" out_root);
       Echo (PPath "- Основной markdown" (PathJoin out_root "report.md"));
       Echo (PText "- Табличные файлы: summary.csv, missing.csv, correlation.csv, top_categories/*.csv");
       Echo (PText "- Графики: hist_*.png, missing_matrix.png, correlation_heatmap.png") ].

(** ** Sample data *)

(** The frame of the test suite's [_sample_df]. *)
Definition sample_df : DataFrame :=
  {| index_len := 4;
     df_columns :=
       [ NumCol "age" [Some 10; Some 20; Some 30; None];
         NumCol "height" [Some 140; Some 150; Some 160; Some 170];
         TextCol "city" [Some "A"; Some "B"; Some "A"; None] ] |}.

(** A frame with a header and no rows. *)
Definition header_only_df : DataFrame :=
  {| index_len := 0; df_columns := [TextCol "city" []] |}.

(** Two numeric columns, the first of them constant. *)
Definition flat_df : DataFrame :=
  {| index_len := 2;
     df_columns :=
       [ NumCol "x" [Some 1; Some 1];
         NumCol "y" [Some 1; Some 2] ] |}.


(** A pandas whose calls all have the given outcome. *)
Definition pandas_giving (outcome : Try DataFrame) : Pandas :=
  {| pd_DataFrame := fun _ => outcome;
     pd_read_csv := fun _ _ _ => outcome |}.

Definition sample_config : QualityConfig :=
  {| min_rows := 100; max_cols := 100; max_missing := 1 # 2;
     penalty := 1 # 6 |}.

(** The core of the spec with the identity in place of the square root. *)
Definition sample_core : Core := spec_core (fun x => x) sample_config.

(** A world in which every path exists, every directory can be made and
    reading any CSV has the given outcome. *)
Definition world_reading (outcome : Try DataFrame) : World :=
  {| path_exists := fun _ => inr true;
     path_text := fun _ => "input.csv";
     read_csv := fun _ _ _ => outcome;
     mkdir := fun _ => inr tt |}.

(** A world without any input file. *)
Definition world_without_input : World :=
  {| path_exists := fun _ => inr false;
     path_text := fun _ => "nowhere.csv";
     read_csv := fun _ _ _ => inl (mkExc "FileNotFoundError" "No such file");
     mkdir := fun _ => inr tt |}.

(** [report <p> --json-summary] *)
Definition json_args (p : string) : ReportArgs :=
  {| path := p; out_dir := "reports"; sep := ","; encoding := "utf-8";
     max_hist_columns := 6; top_k_categories := 5; title := "EDA-отчёт";
     min_missing_share := 1 # 10; json_summary := true |}.

Definition sample_upload (fname : string) : UploadFile :=
  {| filename := fname; read := inr [] |}.

(** ** Auxiliary notions *)

(** The number of raised flags in a list. *)
Definition count_true (flags : list bool) : nat :=
  List.length (filter (fun b => b) flags).

(** A pair of cells, the other way round. *)
Definition swap (p : Q * Q) : Q * Q := (snd p, fst p).

(** Strictly ascending order on text, as [sorted] yields it. *)
Definition str_lt (x y : string) : Prop := String.ltb x y = true.


(** Whether a request passes the file-name check of its route (only the
    CSV route has one). *)
Definition extension_ok (req : Request) : bool :=
  match req with
  | PostQuality _ => true
  | PostQualityFromCsv file => endswith_any (filename file) [".csv"; ".txt"]
  end.

(** The body of a successful answer for the frame [df]. *)
Definition flags_body (core : Core) (df : DataFrame) : JValue :=
  JObj (flags_items
          (core_compute_quality_flags core (core_summarize_dataset core df)
             (core_missing_table core df))).


(** The paths handed to the plotting functions by a run. *)
Fixpoint viz_targets (t : list Event) : list Path :=
  match t with
  | [] => []
  | CallViz _ p :: rest => p :: viz_targets rest
  | _ :: rest => viz_targets rest
  end.


(** Once a file is written or a plot is requested, no analyzer is called
    any more. *)
Fixpoint analysis_first (t : list Event) : bool :=
  match t with
  | [] => true
  | WriteFile _ _ :: rest | CallViz _ _ :: rest =>
      match analyzed rest with [] => true | _ => false end
  | _ :: rest => analysis_first rest
  end.


(** A world without any input file in which no directory can be created. *)
Definition world_read_only : World :=
  {| path_exists := fun _ => inr false;
     path_text := fun _ => "nowhere.csv";
     read_csv := fun _ _ _ => inl (mkExc "FileNotFoundError" "No such file");
     mkdir := fun _ => inl (mkExc "PermissionError" "Permission denied") |}.

(** *** The text of report.md *)






(** * Properties *)

(** ** HTTP API *)

Lemma df_empty_no_rows (df : DataFrame) :
  index_len df = 0%nat -> df_empty df = true.
Proof. intros H. unfold df_empty. rewrite H. reflexivity. Qed.

(** C1: a request to POST /quality or POST /quality-from-csv whose input
    parses into a dataset with 0 rows is answered with status 400, and no
    quality flags are returned. *)
Theorem empty_dataset_is_rejected (pd : Pandas) (core : Core)
    (req : Request) (df : DataFrame) :
  parsed pd req = inr df ->
  index_len df = 0%nat ->
  http_status (handle pd core req) = 400%Z
  /\ returns_flags (handle pd core req) = false.
Proof.
  intros Hparsed Hrows.
  apply df_empty_no_rows in Hrows.
  destruct req as [data | file]; simpl in *.
  - unfold quality_from_dataframe. rewrite Hparsed, Hrows. split; reflexivity.
  - unfold quality_from_csv.
    destruct (negb (endswith_any (filename file) [".csv"; ".txt"])).
    + split; reflexivity.
    + rewrite Hparsed, Hrows. split; reflexivity.
Qed.

Lemma empty_dataset_is_rejected_witness :
  http_status
    (handle (pandas_giving (inr header_only_df)) sample_core
       (PostQualityFromCsv (sample_upload "cities.csv"))) = 400%Z
  /\ returns_flags
       (handle (pandas_giving (inr header_only_df)) sample_core
          (PostQualityFromCsv (sample_upload "cities.csv"))) = false.
Proof.
  apply (empty_dataset_is_rejected _ _ _ header_only_df); reflexivity.
Defined.

(** C4: POST /quality-from-csv answers 400 when the file name ends in
    neither .csv nor .txt, and 400 when reading or parsing the upload
    raises; it returns quality flags only for a file that passes the
    extension check, parses, and gives a non-empty frame. *)
Theorem quality_from_csv_gate (pd : Pandas) (core : Core) (file : UploadFile) :
  (endswith_any (filename file) [".csv"; ".txt"] = false ->
     quality_from_csv pd core file
     = HTTPException 400 "Only CSV files are allowed")
  /\ (forall e, parsed pd (PostQualityFromCsv file) = inl e ->
        http_status (quality_from_csv pd core file) = 400%Z
        /\ returns_flags (quality_from_csv pd core file) = false)
  /\ (returns_flags (quality_from_csv pd core file) = true ->
        endswith_any (filename file) [".csv"; ".txt"] = true
        /\ exists df, parsed pd (PostQualityFromCsv file) = inr df
                      /\ df_empty df = false).
Proof.
  unfold quality_from_csv, parsed.
  destruct (endswith_any (filename file) [".csv"; ".txt"]) eqn:Hext;
    cbn [negb].
  - split; [intros H; discriminate H |].
    destruct (contents <-! read file;; pd_read_csv pd contents "," "utf-8")
      as [e | df] eqn:Hp.
    + split; [intros; split; reflexivity | intros H; discriminate H].
    + split; [intros e H; discriminate H |].
      destruct (df_empty df) eqn:He; [intros H; discriminate H |].
      intros _. split; [reflexivity |].
      exists df. split; [reflexivity | exact He].
  - split; [reflexivity |].
    split; [intros; split; reflexivity | intros H; discriminate H].
Qed.

Lemma quality_from_csv_gate_witness :
  quality_from_csv (pandas_giving (inr sample_df)) sample_core
    (sample_upload "table.xlsx")
  = HTTPException 400 "Only CSV files are allowed".
Proof.
  apply (quality_from_csv_gate (pandas_giving (inr sample_df)) sample_core
           (sample_upload "table.xlsx")).
  reflexivity.
Defined.

Lemma dict_get_missing {V} (d : Dict V) (k : string) :
  (forall v, ~ In (k, v) d) -> exists e, dict_get d k = inl e.
Proof.
  induction d as [| [k' v'] rest IH]; intros Hno; simpl.
  - eexists; reflexivity.
  - destruct (String.eqb_spec k' k) as [-> | Hne].
    + exfalso. apply (Hno v'). left; reflexivity.
    + apply IH. intros v Hin. apply (Hno v). right; exact Hin.
Qed.

(** C9: any exception raised while the frame is built from the body of
    POST /quality, a missing "columns" key included, gives status 400 with
    a message that carries the exception's text. *)
Theorem build_failure_is_400 (pd : Pandas) (core : Core) (data : Dict JValue) :
  (forall e, parsed pd (PostQuality data) = inl e ->
     quality_from_dataframe pd core data
     = HTTPException 400 ("Invalid input data: " ++ exc_str e))
  /\ ((forall v, ~ In ("columns", v) data) ->
        exists msg, quality_from_dataframe pd core data = HTTPException 400 msg).
Proof.
  split.
  - intros e He. simpl in He. unfold quality_from_dataframe. rewrite He.
    reflexivity.
  - intros Hno. destruct (dict_get_missing data "columns" Hno) as [e He].
    unfold quality_from_dataframe. rewrite He. simpl. eexists; reflexivity.
Qed.

Lemma build_failure_is_400_witness :
  quality_from_dataframe (pandas_giving (inr sample_df)) sample_core
    [("rows", JArr [])]
  = HTTPException 400 "Invalid input data: 'columns'".
Proof.
  apply (proj1 (build_failure_is_400 (pandas_giving (inr sample_df))
                  sample_core [("rows", JArr [])])
           (mkExc "KeyError" "'columns'")).
  reflexivity.
Defined.

(** ** Quality score *)

Lemma Qmax_compat (a b : Q) : a == b -> Qmax 0 a == Qmax 0 b.
Proof.
  intros Hab. unfold Qmax.
  destruct (Qle_bool 0 a) eqn:Ha, (Qle_bool 0 b) eqn:Hb; try reflexivity;
    try exact Hab.
  - apply Qle_bool_iff in Ha. rewrite Hab in Ha. apply Qle_bool_iff in Ha.
    congruence.
  - apply Qle_bool_iff in Hb. rewrite <- Hab in Hb. apply Qle_bool_iff in Hb.
    congruence.
Qed.

Lemma Qmax_floor (a : Q) : 0 <= Qmax 0 a.
Proof.
  unfold Qmax. destruct (Qle_bool 0 a) eqn:Ha.
  - apply Qle_bool_iff; exact Ha.
  - apply Qle_refl.
Qed.

Lemma Qmax_below (a b : Q) : 0 <= b -> a <= b -> Qmax 0 a <= b.
Proof. intros Hb Ha. unfold Qmax. destruct (Qle_bool 0 a); assumption. Qed.

(** The running score after all decrements. *)
Lemma fold_decrement (p : Q) (flags : list bool) :
  forall s, fold_left (decrement p) flags s
            == s - inject_Z (Z.of_nat (count_true flags)) * p.
Proof.
  unfold count_true.
  induction flags as [| b rest IH]; intros s; simpl fold_left.
  - simpl. ring.
  - rewrite IH. destruct b; simpl.
    + rewrite Zpos_P_of_succ_nat. unfold Z.succ. rewrite inject_Z_plus. ring.
    + reflexivity.
Qed.

(** C2: the score is 1 minus the penalty times the number of triggered
    flags among the six, floored at 0; with a non-negative penalty it lies
    between 0 and 1.  The result is a function of the summary, the missing
    table and the configuration alone. *)
Theorem quality_score_penalised (cfg : QualityConfig)
    (summary : DatasetSummary) (missing_df : MissingTable) :
  0 <= penalty cfg ->
  let flags := compute_quality_flags cfg summary missing_df in
  quality_score flags
    == Qmax 0 (1 - inject_Z (Z.of_nat (triggered flags)) * penalty cfg)
  /\ (triggered flags <= 6)%nat
  /\ 0 <= quality_score flags /\ quality_score flags <= 1.
Proof.
  intros Hp flags.
  assert (Hscore : quality_score flags
            == Qmax 0 (1 - inject_Z (Z.of_nat (triggered flags)) * penalty cfg)).
  { unfold flags, compute_quality_flags; cbn [quality_score].
    apply Qmax_compat. apply fold_decrement. }
  split; [exact Hscore |].
  split.
  { unfold triggered, boolean_flags.
    etransitivity; [apply filter_length_le | simpl; lia]. }
  rewrite Hscore. split; [apply Qmax_floor |].
  apply Qmax_below; [discriminate |].
  assert (0 <= inject_Z (Z.of_nat (triggered flags)) * penalty cfg).
  { apply Qmult_le_0_compat; [| exact Hp].
    change 0 with (inject_Z 0). rewrite <- Zle_Qle. lia. }
  lra.
Qed.

Lemma quality_score_penalised_witness :
  quality_score
    (compute_quality_flags sample_config
       (summarize_dataset (fun x => x) sample_df) (missing_table sample_df))
  <= 1.
Proof.
  apply (quality_score_penalised sample_config
           (summarize_dataset (fun x => x) sample_df)
           (missing_table sample_df)).
  discriminate.
Defined.

(** ** The sample frame *)

Example sample_df_well_formed : well_formed sample_df.
Proof. repeat constructor. Qed.

Example sample_city_table :
  top_categories sample_df (Some 5%nat) 2 = [("city", [("A", 2%nat); ("B", 1%nat)])].
Proof. reflexivity. Qed.

(** C8: on the sample frame the summary has 4 rows and 3 columns, the
    missing table counts 1 missing value for "age", and the top categories
    with [top_k = 2] hold at most 2 rows for "city", "A" among them. *)
Theorem sample_scenario (sqrtQ : Q -> Q) :
  n_rows (summarize_dataset sqrtQ sample_df) = 4%nat
  /\ n_cols (summarize_dataset sqrtQ sample_df) = 3%nat
  /\ option_map missing_count (missing_loc (missing_table sample_df) "age")
     = Some 1%nat
  /\ exists table,
       dict_get (top_categories sample_df (Some 5%nat) 2) "city" = inr table
       /\ (List.length table <= 2)%nat
       /\ In "A" (map fst table).
Proof.
  repeat split; try reflexivity.
  exists [("A", 2%nat); ("B", 1%nat)].
  split; [reflexivity |].
  split; [simpl; lia | left; reflexivity].
Qed.

(** ** Top categories *)

Section Ranking.
Variable vals : list string.

Lemma ranked_freq (a b : string * nat) :
  ranked vals a b -> (snd b <= snd a)%nat.
Proof. intros [H | [H _]]; lia. Qed.

Lemma Forall_insert_desc (P : string * nat -> Prop) x l :
  P x -> Forall P l -> Forall P (insert_desc x l).
Proof.
  intros Hx Hl. induction Hl as [| y rest Hy Hrest IH]; simpl.
  - constructor; [exact Hx | constructor].
  - destruct (snd y <=? snd x)%nat.
    + constructor; [exact Hx |]. constructor; assumption.
    + constructor; assumption.
Qed.

Lemma Forall_sort_desc (P : string * nat -> Prop) l :
  Forall P l -> Forall P (sort_desc l).
Proof.
  intros Hl. induction Hl as [| x rest Hx Hrest IH]; simpl.
  - constructor.
  - apply Forall_insert_desc; assumption.
Qed.

(** Insertion keeps the ranking when the new row was seen before all the
    rows already placed. *)
Lemma insert_desc_ranked x l :
  StronglySorted (ranked vals) l ->
  Forall (earlier vals x) l ->
  StronglySorted (ranked vals) (insert_desc x l).
Proof.
  intros Hs. induction Hs as [| y rest Hrest IH Hy]; intros He; simpl.
  - repeat constructor.
  - inversion He as [| ? ? Hxy Hxrest]; subst.
    destruct (snd y <=? snd x)%nat eqn:Hle.
    + apply Nat.leb_le in Hle.
      constructor; [constructor; assumption |].
      constructor.
      * destruct (Nat.eq_dec (snd x) (snd y)) as [Heq | Hne].
        -- right. split; assumption.
        -- left. lia.
      * rewrite Forall_forall in *. intros z Hz.
        pose proof (ranked_freq _ _ (Hy z Hz)) as Hzy.
        destruct (Nat.eq_dec (snd x) (snd z)) as [Heq | Hne].
        -- right. split; [exact Heq | apply Hxrest; exact Hz].
        -- left. lia.
    + apply Nat.leb_gt in Hle.
      constructor; [apply IH; exact Hxrest |].
      apply Forall_insert_desc; [left; exact Hle | exact Hy].
Qed.

Lemma sort_desc_ranked l :
  StronglySorted (earlier vals) l -> StronglySorted (ranked vals) (sort_desc l).
Proof.
  intros Hs. induction Hs as [| x rest Hrest IH Hx]; simpl.
  - constructor.
  - apply insert_desc_ranked; [exact IH |].
    apply Forall_sort_desc; exact Hx.
Qed.
End Ranking.

Lemma first_seen_cons_other (x v : string) (rest : list string) :
  x <> v -> first_seen v (x :: rest) = S (first_seen v rest).
Proof.
  intros Hne. simpl. destruct (String.eqb_spec x v); [contradiction | reflexivity].
Qed.

(** Dropping [x] from a list ordered by first occurrence in [rest] leaves
    it ordered by first occurrence in [x :: rest]. *)
Lemma filter_first_seen (x : string) (rest l : list string) :
  StronglySorted (fun a b => (first_seen a rest < first_seen b rest)%nat) l ->
  StronglySorted
    (fun a b => (first_seen a (x :: rest) < first_seen b (x :: rest))%nat)
    (filter (fun y => negb (String.eqb x y)) l).
Proof.
  intros Hs. induction Hs as [| a l' Hl' IH Ha]; cbn [filter].
  - constructor.
  - destruct (String.eqb_spec x a) as [Heq | Hne]; cbn [negb]; [exact IH |].
    constructor; [exact IH |].
    rewrite Forall_forall in *. intros b Hb.
    apply filter_In in Hb. destruct Hb as [Hb Hxb].
    destruct (String.eqb_spec x b) as [| Hnb]; [discriminate |].
    rewrite !first_seen_cons_other by assumption.
    apply -> Nat.succ_lt_mono. apply Ha; exact Hb.
Qed.

(** The distinct values come in the order of their first occurrence. *)
Lemma distinct_first_seen (vals : list string) :
  StronglySorted (fun a b => (first_seen a vals < first_seen b vals)%nat)
    (distinct String.eqb vals).
Proof.
  induction vals as [| x rest IH]; simpl distinct.
  - constructor.
  - constructor; [apply filter_first_seen; exact IH |].
    rewrite Forall_forall. intros b Hb.
    apply filter_In in Hb. destruct Hb as [_ Hxb].
    destruct (String.eqb_spec x b) as [| Hnb]; [discriminate |].
    rewrite (first_seen_cons_other x b) by assumption.
    cbn [first_seen]. rewrite String.eqb_refl. lia.
Qed.

Lemma StronglySorted_map {A B} (R : B -> B -> Prop) (f : A -> B) (l : list A) :
  StronglySorted (fun a b => R (f a) (f b)) l -> StronglySorted R (map f l).
Proof.
  intros Hs. induction Hs as [| a l' Hl' IH Ha]; simpl.
  - constructor.
  - constructor; [exact IH |].
    rewrite Forall_forall in *. intros b Hb.
    apply in_map_iff in Hb. destruct Hb as [b' [<- Hb']]. apply Ha; exact Hb'.
Qed.

Lemma StronglySorted_firstn {A} (R : A -> A -> Prop) (n : nat) (l : list A) :
  StronglySorted R l -> StronglySorted R (firstn n l).
Proof.
  intros Hs. revert n. induction Hs as [| a l' Hl' IH Ha]; intros [| n]; simpl;
    try constructor.
  - apply IH.
  - rewrite Forall_forall in *. intros b Hb. apply Ha.
    rewrite <- (firstn_skipn n l'). apply in_or_app. left; exact Hb.
Qed.

Lemma In_firstn {A} (n : nat) (l : list A) (x : A) :
  In x (firstn n l) -> In x l.
Proof.
  intros H. rewrite <- (firstn_skipn n l). apply in_or_app. left; exact H.
Qed.

(** The table of one column: at most [top_k] rows, ranked, each with the
    frequency of its value. *)
Lemma top_values_ranked (top_k : Z) (cells : list (option string)) :
  (0 <= top_k)%Z ->
  (Z.of_nat (List.length (top_values top_k cells)) <= top_k)%Z
  /\ StronglySorted (ranked (present cells)) (top_values top_k cells)
  /\ Forall (fun row => snd row = count_of (fst row) (present cells))
       (top_values top_k cells).
Proof.
  intros Hk. unfold top_values. split; [| split].
  - pose proof (firstn_le_length (Z.to_nat top_k)
                  (sort_desc (value_counts (present cells)))). lia.
  - apply StronglySorted_firstn. apply sort_desc_ranked.
    unfold value_counts. apply StronglySorted_map. simpl.
    apply distinct_first_seen.
  - rewrite Forall_forall. intros row Hrow. apply In_firstn in Hrow.
    revert row Hrow. rewrite <- Forall_forall. apply Forall_sort_desc.
    unfold value_counts. rewrite Forall_forall. intros row Hrow.
    apply in_map_iff in Hrow. destruct Hrow as [v [<- _]]. reflexivity.
Qed.

Lemma In_text_columns (cs : list Column) l cells :
  In (l, cells) (text_columns cs) -> In (TextCol l cells) cs.
Proof.
  induction cs as [| [l' c' | l' c'] rest IH]; simpl; intros H.
  - contradiction.
  - right. apply IH; exact H.
  - destruct H as [H | H]; [left; congruence | right; apply IH; exact H].
Qed.

(** C6: for a positive [top_k], the table of every analysed column has at
    most [top_k] rows of a value with its frequency, in descending
    frequency, equally frequent values in the order they are first seen in
    the column. *)
Theorem top_categories_ranked (df : DataFrame) (max_columns : option nat)
    (top_k : Z) (col : string) (table : list (string * nat)) :
  (0 < top_k)%Z ->
  In (col, table) (top_categories df max_columns top_k) ->
  exists cells,
    In (TextCol col cells) (df_columns df)
    /\ (Z.of_nat (List.length table) <= top_k)%Z
    /\ StronglySorted (ranked (present cells)) table
    /\ Forall (fun row => snd row = count_of (fst row) (present cells)) table.
Proof.
  intros Hk Hin. unfold top_categories in Hin.
  apply in_map_iff in Hin. destruct Hin as [[l cells] [Heq Hin]].
  simpl in Heq. inversion Heq; subst; clear Heq.
  apply filter_In in Hin. destruct Hin as [Hin _].
  exists cells. split.
  - apply In_text_columns. destruct max_columns as [n |]; simpl in Hin.
    + apply In_firstn in Hin; exact Hin.
    + exact Hin.
  - apply top_values_ranked. lia.
Qed.

Lemma top_categories_ranked_witness :
  exists cells,
    In (TextCol "city" cells) (df_columns sample_df)
    /\ (Z.of_nat (List.length [("A", 2%nat); ("B", 1%nat)]) <= 2)%Z
    /\ StronglySorted (ranked (present cells)) [("A", 2%nat); ("B", 1%nat)]
    /\ Forall (fun row => snd row = count_of (fst row) (present cells))
         [("A", 2%nat); ("B", 1%nat)].
Proof.
  apply (top_categories_ranked sample_df (Some 5%nat) 2 "city").
  - reflexivity.
  - left; reflexivity.
Defined.

(** Ties keep the order of first occurrence: "b" and "a" both occur twice,
    "b" first. *)
Example top_values_tie :
  top_values 2 [Some "c"; Some "b"; Some "a"; Some "a"; Some "b"]
  = [("b", 2%nat); ("a", 2%nat)].
Proof. reflexivity. Qed.

(** ** Correlation *)

Lemma Qmult_swap (x y : Q) : x * y = y * x.
Proof. unfold Qmult. f_equal; [apply Z.mul_comm | apply Pos.mul_comm]. Qed.

Lemma complete_pairs_swap (xs : list (option Q)) :
  forall ys, complete_pairs ys xs = map swap (complete_pairs xs ys).
Proof.
  induction xs as [| [x |] xs' IH]; intros [| [y |] ys']; simpl;
    try reflexivity; rewrite IH; reflexivity.
Qed.

Lemma complete_pairs_diag (xs : list (option Q)) :
  complete_pairs xs xs = map (fun x => (x, x)) (present xs).
Proof.
  induction xs as [| [x |] xs' IH]; simpl; try reflexivity.
  - rewrite IH; reflexivity.
  - exact IH.
Qed.

Lemma co_dev_swap (ps : list (Q * Q)) : co_dev (map swap ps) = co_dev ps.
Proof.
  unfold co_dev.
  replace (map fst (map swap ps)) with (map snd ps)
    by (rewrite map_map; apply map_ext; reflexivity).
  replace (map snd (map swap ps)) with (map fst ps)
    by (rewrite map_map; apply map_ext; reflexivity).
  cbv zeta. rewrite map_map. f_equal. apply map_ext. intros p. simpl.
  apply Qmult_swap.
Qed.

Lemma pearson_sym (xs ys : list (option Q)) : pearson xs ys = pearson ys xs.
Proof.
  unfold pearson. rewrite (complete_pairs_swap xs ys). cbv zeta.
  rewrite co_dev_swap.
  replace (map fst (map swap (complete_pairs xs ys)))
    with (map snd (complete_pairs xs ys))
    by (rewrite map_map; apply map_ext; reflexivity).
  replace (map snd (map swap (complete_pairs xs ys)))
    with (map fst (complete_pairs xs ys))
    by (rewrite map_map; apply map_ext; reflexivity).
  rewrite (Qmult_swap (sum_sq_dev (map snd (complete_pairs xs ys)))).
  reflexivity.
Qed.

Lemma qsum_nonneg (l : list Q) : Forall (fun t => 0 <= t) l -> 0 <= qsum l.
Proof.
  intros H. induction H as [| t rest Ht Hrest IH]; simpl.
  - apply Qle_refl.
  - lra.
Qed.

Lemma qsum_pos (l : list Q) (t : Q) :
  Forall (fun u => 0 <= u) l -> In t l -> 0 < t -> 0 < qsum l.
Proof.
  intros H. induction H as [| u rest Hu Hrest IH]; simpl; intros Hin Ht.
  - contradiction.
  - pose proof (qsum_nonneg rest Hrest).
    destruct Hin as [-> | Hin]; [lra |].
    specialize (IH Hin Ht). lra.
Qed.

Lemma Qsquare_nonneg (t : Q) : 0 <= t * t.
Proof. nra. Qed.

Lemma Qsquare_pos (t : Q) : ~ t == 0 -> 0 < t * t.
Proof.
  intros H. destruct (Q_dec t 0) as [[Hlt | Hgt] | Heq];
    [nra | nra | contradiction].
Qed.

(** A column with two different values has a positive squared deviation. *)
Lemma sum_sq_dev_pos (xs : list Q) (a b : Q) :
  In a xs -> In b xs -> ~ a == b -> 0 < sum_sq_dev xs.
Proof.
  intros Ha Hb Hab. unfold sum_sq_dev.
  set (m := qmean xs).
  assert (Hnn : Forall (fun t => 0 <= t)
                  (map (fun x => (x - m) * (x - m)) xs)).
  { rewrite Forall_forall. intros t Ht. apply in_map_iff in Ht.
    destruct Ht as [x [<- _]]. apply Qsquare_nonneg. }
  assert (Hoff : exists c, In c xs /\ ~ c == m).
  { destruct (Qeq_dec a m) as [Ham | Ham].
    - exists b. split; [exact Hb |]. intros Hbm. apply Hab.
      rewrite Ham, Hbm. reflexivity.
    - exists a. split; assumption. }
  destruct Hoff as [c [Hc Hcm]].
  apply (qsum_pos _ ((c - m) * (c - m)) Hnn).
  - apply in_map_iff. exists c. split; [reflexivity | exact Hc].
  - apply Qsquare_pos. intros H. apply Hcm. lra.
Qed.

Lemma pearson_diag (xs : list (option Q)) :
  0 < sum_sq_dev (present xs) -> pearson xs xs = Some 1%R.
Proof.
  intros Hpos. unfold pearson. rewrite complete_pairs_diag. cbv zeta.
  replace (map fst (map (fun x => (x, x)) (present xs))) with (present xs)
    by (rewrite map_map; simpl; rewrite map_id; reflexivity).
  replace (map snd (map (fun x => (x, x)) (present xs))) with (present xs)
    by (rewrite map_map; simpl; rewrite map_id; reflexivity).
  replace (co_dev (map (fun x => (x, x)) (present xs)))
    with (sum_sq_dev (present xs)).
  2:{ unfold co_dev, sum_sq_dev.
      replace (map fst (map (fun x => (x, x)) (present xs))) with (present xs)
        by (rewrite map_map; simpl; rewrite map_id; reflexivity).
      replace (map snd (map (fun x => (x, x)) (present xs))) with (present xs)
        by (rewrite map_map; simpl; rewrite map_id; reflexivity).
      cbv zeta. rewrite map_map. reflexivity. }
  set (v := sum_sq_dev (present xs)) in *.
  destruct (Qle_bool (v * v) 0) eqn:Hle.
  - apply Qle_bool_iff in Hle. nra.
  - f_equal. rewrite Q2R_mult.
    assert (0 < Q2R v)%R by (rewrite <- RMicromega.Q2R_0; apply Qlt_Rlt; exact Hpos).
    rewrite sqrt_square by lra. field. lra.
Qed.

Lemma corr_at_entries (df : DataFrame) (i j : nat) :
  (2 <= List.length (numeric_columns (df_columns df)))%nat ->
  corr_at (correlation_matrix df) i j
  = match nth_error (numeric_columns (df_columns df)) i,
          nth_error (numeric_columns (df_columns df)) j with
    | Some a, Some b => Some (pearson (snd a) (snd b))
    | _, _ => None
    end.
Proof.
  intros Hn. unfold correlation_matrix.
  destruct (Nat.ltb_spec (List.length (numeric_columns (df_columns df))) 2)
    as [Hlt | _]; [lia |].
  cbv zeta. unfold corr_at. cbn [corr_rows].
  rewrite nth_error_map.
  destruct (nth_error (numeric_columns (df_columns df)) i) as [a |];
    cbn [option_map]; [| reflexivity].
  rewrite nth_error_map.
  destruct (nth_error (numeric_columns (df_columns df)) j) as [b |];
    reflexivity.
Qed.

(** C7, as far as it holds: the matrix is empty below two numeric columns;
    otherwise it is symmetric, and the diagonal entry of a numeric column
    that holds two different values is 1. *)
Theorem correlation_matrix_shape (df : DataFrame) :
  ((List.length (numeric_columns (df_columns df)) < 2)%nat ->
     corr_empty (correlation_matrix df) = true
     /\ corr_rows (correlation_matrix df) = [])
  /\ ((2 <= List.length (numeric_columns (df_columns df)))%nat ->
        (forall i j,
            corr_at (correlation_matrix df) i j
            = corr_at (correlation_matrix df) j i)
        /\ (forall i l cells a b,
               nth_error (numeric_columns (df_columns df)) i = Some (l, cells) ->
               In a (present cells) -> In b (present cells) -> ~ a == b ->
               corr_at (correlation_matrix df) i i = Some (Some 1%R))).
Proof.
  split.
  - intros Hlt. unfold correlation_matrix.
    destruct (Nat.ltb_spec (List.length (numeric_columns (df_columns df))) 2);
      [split; reflexivity | lia].
  - intros Hn. split.
    + intros i j. rewrite !corr_at_entries by exact Hn.
      destruct (nth_error (numeric_columns (df_columns df)) i) as [a |],
               (nth_error (numeric_columns (df_columns df)) j) as [b |];
        try reflexivity.
      rewrite pearson_sym. reflexivity.
    + intros i l cells a b Hi Ha Hb Hab.
      rewrite corr_at_entries by exact Hn. rewrite Hi. cbn [snd].
      rewrite pearson_diag; [reflexivity |].
      apply (sum_sq_dev_pos _ a b); assumption.
Qed.

Lemma correlation_matrix_shape_witness :
  corr_at (correlation_matrix sample_df) 1 1 = Some (Some 1%R).
Proof.
  refine (proj2 (proj2 (correlation_matrix_shape sample_df) _)
            1%nat "height" _ 140 150 _ _ _ _).
  - simpl; lia.
  - reflexivity.
  - left; reflexivity.
  - right; left; reflexivity.
  - discriminate.
Defined.

(** C7 as stated fails on the diagonal: the coefficient of a constant
    column with itself is undefined. *)
Lemma constant_column_diagonal_undefined :
  (2 <= List.length (numeric_columns (df_columns flat_df)))%nat
  /\ corr_at (correlation_matrix flat_df) 0 0 = Some None
  /\ Some None <> Some (Some 1%R).
Proof.
  split; [simpl; lia |]. split; [reflexivity | discriminate].
Qed.

(** ** Command line: loading *)

Lemma load_csv_fails (world : World) (p : Path) (sep encoding : string) :
  load_fails world p sep encoding ->
  exists msg, _load_csv world p sep encoding = ([], inl (BadParameter msg)).
Proof.
  intros [Hno | [Hex [exc Hexc]]]; unfold _load_csv.
  - rewrite Hno. eexists; reflexivity.
  - rewrite Hex, Hexc. eexists; reflexivity.
Qed.

Lemma load_csv_succeeds (world : World) (p : Path) (sep encoding : string)
    (df : DataFrame) :
  path_exists world p = inr true ->
  read_csv world p sep encoding = inr df ->
  _load_csv world p sep encoding = ([], inr df).
Proof.
  intros Hex Hread. unfold _load_csv. rewrite Hex, Hread. reflexivity.
Qed.

(** The first step of [report]: the call of [mkdir] on the output
    directory, which either returns or ends the run. *)
Lemma report_after_mkdir (world : World) (core : Core) (a : ReportArgs) :
  match mkdir world (PathOf (out_dir a)) with
  | inl e => report world core a = ([Mkdir (PathOf (out_dir a))], inl (Uncaught e))
  | inr _ =>
      forall err,
        _load_csv world (PathOf (path a)) (sep a) (encoding a) = ([], inl err) ->
        report world core a = ([Mkdir (PathOf (out_dir a))], inl err)
  end.
Proof.
  unfold report. destruct (mkdir world (PathOf (out_dir a))) as [e | u].
  - reflexivity.
  - intros err Hload. unfold bind at 1. cbn [emit snd fst].
    unfold bind at 1. cbn [ret snd fst].
    unfold bind at 1. rewrite Hload. reflexivity.
Qed.

(** C5, as far as it holds: when [exists()] reports the input path
    missing, or the path is there and reading the CSV raises, no analyzer
    runs and no file is written.  [overview] raises a parameter error with
    nothing done.  [report] has first called [mkdir] on the output
    directory and done nothing else; it raises the parameter error when
    that call returned, and the exception of that call when it raised. *)
Theorem failed_load_stops_command (world : World) (core : Core) :
  (forall p sep encoding,
      load_fails world (PathOf p) sep encoding ->
      exists msg,
        overview world core p sep encoding = ([], inl (BadParameter msg)))
  /\ (forall a,
        load_fails world (PathOf (path a)) (sep a) (encoding a) ->
        fst (report world core a) = [Mkdir (PathOf (out_dir a))]
        /\ analyzed (fst (report world core a)) = []
        /\ written (fst (report world core a)) = []
        /\ match mkdir world (PathOf (out_dir a)) with
           | inr _ =>
               exists msg, snd (report world core a) = inl (BadParameter msg)
           | inl e => snd (report world core a) = inl (Uncaught e)
           end).
Proof.
  split.
  - intros p s e Hfail.
    destruct (load_csv_fails world (PathOf p) s e Hfail) as [msg Hmsg].
    exists msg. unfold overview, bind. rewrite Hmsg. reflexivity.
  - intros a Hfail.
    destruct (load_csv_fails world _ _ _ Hfail) as [msg Hmsg].
    pose proof (report_after_mkdir world core a) as Hrun.
    destruct (mkdir world (PathOf (out_dir a))) as [e | u].
    + rewrite Hrun. repeat split.
    + rewrite (Hrun _ Hmsg). repeat split. exists msg; reflexivity.
Qed.

Lemma failed_load_stops_command_witness :
  (exists msg,
      overview world_without_input sample_core "nowhere.csv" "," "utf-8"
      = ([], inl (BadParameter msg)))
  /\ fst (report world_without_input sample_core (default_args "nowhere.csv"))
     = [Mkdir (PathOf "reports")]
  /\ written (fst (report world_read_only sample_core
                     (default_args "nowhere.csv"))) = [].
Proof.
  split; [| split].
  - apply (proj1 (failed_load_stops_command world_without_input sample_core)).
    left; reflexivity.
  - apply (proj2 (failed_load_stops_command world_without_input sample_core)
             (default_args "nowhere.csv")).
    left; reflexivity.
  - apply (proj2 (failed_load_stops_command world_read_only sample_core)
             (default_args "nowhere.csv")).
    left; reflexivity.
Defined.

(** C5 as stated fails for [report]: with no input file the run still
    calls [mkdir] on the output directory, which creates it, before the
    parameter error. *)
Lemma report_creates_directory_before_load :
  load_fails world_without_input (PathOf "nowhere.csv") "," "utf-8"
  /\ fst (report world_without_input sample_core (default_args "nowhere.csv"))
     = [Mkdir (PathOf "reports")]
  /\ exists msg,
       snd (report world_without_input sample_core (default_args "nowhere.csv"))
       = inl (BadParameter msg).
Proof.
  split; [left; reflexivity |].
  split; [reflexivity |]. eexists; reflexivity.
Qed.

(** ** Command line: the report *)

(** A run whose input loads goes through every step, in source order. *)
Lemma report_loaded (world : World) (core : Core) (a : ReportArgs)
    (df : DataFrame) :
  mkdir world (PathOf (out_dir a)) = inr tt ->
  path_exists world (PathOf (path a)) = inr true ->
  read_csv world (PathOf (path a)) (sep a) (encoding a) = inr df ->
  report world core a = (loaded_run core a df, inr tt).
Proof.
  intros Hmk Hex Hread. unfold report, loaded_run.
  rewrite Hmk, (load_csv_succeeds world _ _ _ df Hex Hread).
  cbv beta iota zeta delta [bind analyze emit ret when fst snd].
  destruct (missing_empty (core_missing_table core df)),
           (corr_empty (core_correlation_matrix core df)),
           (json_summary a); reflexivity.
Qed.




(** ** Command line: problematic columns *)

Lemma str_lt_iff (x y : string) : str_lt x y <-> String_as_OT.lt x y.
Proof.
  unfold str_lt, String.ltb. rewrite <- String_as_OT.cmp_lt.
  unfold String_as_OT.cmp.
  destruct (String.compare x y); split; intros H; congruence.
Qed.

Lemma str_lt_trans (x y z : string) : str_lt x y -> str_lt y z -> str_lt x z.
Proof.
  rewrite !str_lt_iff. apply String_as_OT.lt_trans.
Qed.

Lemma leb_cases (x y : string) : String.leb x y = true -> x = y \/ str_lt x y.
Proof.
  unfold String.leb, str_lt, String.ltb.
  destruct (String.compare x y) eqn:Hc; intros H.
  - left. apply String.compare_eq_iff; exact Hc.
  - right; reflexivity.
  - discriminate.
Qed.

Lemma leb_false_lt (x y : string) : String.leb x y = false -> str_lt y x.
Proof.
  unfold String.leb, str_lt, String.ltb. rewrite (String.compare_antisym y x).
  destruct (String.compare x y); simpl; intros H; congruence.
Qed.

Lemma In_insert_sorted (x z : string) (l : list string) :
  In z (insert_sorted x l) <-> z = x \/ In z l.
Proof.
  induction l as [| y rest IH]; simpl.
  - intuition congruence.
  - destruct (String.leb x y); simpl; [intuition congruence |].
    rewrite IH. intuition congruence.
Qed.

Lemma In_sorted (z : string) (s : list string) : In z (sorted s) <-> In z s.
Proof.
  induction s as [| x rest IH]; simpl; [reflexivity |].
  rewrite In_insert_sorted, IH. intuition congruence.
Qed.

Lemma insert_sorted_strict (x : string) (l : list string) :
  StronglySorted str_lt l -> ~ In x l ->
  StronglySorted str_lt (insert_sorted x l).
Proof.
  intros Hs. induction Hs as [| y rest Hrest IH Hy]; intros Hnin; simpl.
  - repeat constructor.
  - destruct (String.leb x y) eqn:Hle.
    + assert (Hxy : str_lt x y).
      { destruct (leb_cases x y Hle) as [-> | H]; [| exact H].
        exfalso. apply Hnin. left; reflexivity. }
      constructor; [constructor; assumption |].
      constructor; [exact Hxy |].
      rewrite Forall_forall in *. intros z Hz.
      apply (str_lt_trans x y z); [exact Hxy | apply Hy; exact Hz].
    + constructor.
      * apply IH. intros Hin. apply Hnin. right; exact Hin.
      * rewrite Forall_forall in *. intros z Hz.
        apply In_insert_sorted in Hz. destruct Hz as [-> | Hz].
        -- apply leb_false_lt; exact Hle.
        -- apply Hy; exact Hz.
Qed.

Lemma sorted_strict (s : list string) :
  NoDup s -> StronglySorted str_lt (sorted s).
Proof.
  intros Hnd. induction Hnd as [| x rest Hnin Hrest IH]; simpl.
  - constructor.
  - apply insert_sorted_strict; [exact IH |].
    rewrite In_sorted. exact Hnin.
Qed.

Lemma existsb_eqb_In (x : string) (l : list string) :
  existsb (String.eqb x) l = true <-> In x l.
Proof.
  rewrite existsb_exists. split.
  - intros [y [Hy Heq]]. apply String.eqb_eq in Heq. subst; exact Hy.
  - intros H. exists x. split; [exact H | apply String.eqb_refl].
Qed.

Lemma set_update_spec (l : list string) :
  forall s, NoDup s ->
    NoDup (set_update s l)
    /\ (forall z, In z (set_update s l) <-> In z s \/ In z l).
Proof.
  unfold set_update.
  induction l as [| x rest IH]; intros s Hs; simpl.
  - split; [exact Hs | intuition].
  - destruct (existsb (String.eqb x) s) eqn:Hmem.
    + apply existsb_eqb_In in Hmem.
      destruct (IH s Hs) as [Hnd Hin]. split; [exact Hnd |].
      intros z. rewrite Hin. intuition congruence.
    + assert (Hnin : ~ In x s).
      { intros H. apply existsb_eqb_In in H. congruence. }
      destruct (IH (x :: s) (NoDup_cons x Hnin Hs)) as [Hnd Hin].
      split; [exact Hnd |].
      intros z. rewrite Hin. simpl. intuition congruence.
Qed.

Lemma Qltb_lt (a b : Q) : Qltb a b = true <-> a < b.
Proof.
  unfold Qltb. rewrite negb_true_iff. split.
  - intros H. apply Qnot_le_lt. intros Hle. apply Qle_bool_iff in Hle.
    congruence.
  - intros H. destruct (Qle_bool b a) eqn:Hle; [| reflexivity].
    apply Qle_bool_iff in Hle. exfalso. apply (Qlt_not_le _ _ H Hle).
Qed.

Lemma In_problematic_missing_cols (missing_df : MissingTable) (t : Q)
    (c : string) :
  In c (problematic_missing_cols missing_df t) <-> missing_over missing_df t c.
Proof.
  unfold problematic_missing_cols, missing_over.
  destruct missing_df as [| r0 rest]; cbn [missing_empty negb].
  - split; [contradiction | intros [r [[] _]]].
  - rewrite in_map_iff. split.
    + intros [r [Hc Hr]]. apply filter_In in Hr. destruct Hr as [Hr Hle].
      exists r. repeat split; [exact Hr | exact Hc |].
      apply Qle_bool_iff; exact Hle.
    + intros [r [Hr [Hc Hle]]]. exists r. split; [exact Hc |].
      apply filter_In. split; [exact Hr | apply Qle_bool_iff; exact Hle].
Qed.

Lemma In_constant_cols (summary : DatasetSummary) (c : string) :
  In c (constant_cols summary) <-> constant_in summary c.
Proof.
  unfold constant_cols, constant_in. rewrite in_map_iff. split.
  - intros [col [Hc Hcol]]. apply filter_In in Hcol.
    destruct Hcol as [Hcol Hb]. apply andb_true_iff in Hb.
    destruct Hb as [Hu Hn]. apply Nat.eqb_eq in Hu. apply Nat.ltb_lt in Hn.
    exists col. repeat split; assumption.
  - intros [col [Hcol [Hc [Hn Hu]]]]. exists col. split; [exact Hc |].
    apply filter_In. split; [exact Hcol |].
    apply andb_true_iff. split; [apply Nat.eqb_eq | apply Nat.ltb_lt];
      assumption.
Qed.

Lemma In_high_card_cols (summary : DatasetSummary) (c : string) :
  In c (high_card_cols summary) <-> high_cardinality_in summary c.
Proof.
  unfold high_card_cols, high_cardinality_in. rewrite in_map_iff. split.
  - intros [col [Hc Hcol]]. apply filter_In in Hcol.
    destruct Hcol as [Hcol Hb]. rewrite !andb_true_iff in Hb.
    destruct Hb as [[Hnum Hu] Hn]. apply negb_true_iff in Hnum.
    apply Nat.ltb_lt in Hu. apply Nat.ltb_lt in Hn.
    exists col. repeat split; assumption.
  - intros [col [Hcol [Hc [Hnum [Hu Hn]]]]]. exists col. split; [exact Hc |].
    apply filter_In. split; [exact Hcol |].
    rewrite !andb_true_iff, negb_true_iff, !Nat.ltb_lt. repeat split; assumption.
Qed.

Lemma In_low_var_cols (summary : DatasetSummary) (c : string) :
  In c (low_var_cols summary) <-> low_variation_in summary c.
Proof.
  unfold low_var_cols, low_variation_in. rewrite in_map_iff. split.
  - intros [col [Hc Hcol]]. apply filter_In in Hcol.
    destruct Hcol as [Hcol Hb]. rewrite !andb_true_iff in Hb.
    destruct Hb as [[Hnum Hs] Hn]. apply Nat.ltb_lt in Hn.
    exists col. repeat split; try assumption.
    destruct (std col) as [s |]; [| discriminate].
    exists s. split; [reflexivity | apply Qltb_lt; exact Hs].
  - intros [col [Hcol [Hc [Hnum [[s [Hs Hlt]] Hn]]]]].
    exists col. split; [exact Hc |].
    apply filter_In. split; [exact Hcol |].
    rewrite !andb_true_iff, Hs, Nat.ltb_lt.
    repeat split; try assumption. apply Qltb_lt; exact Hlt.
Qed.

(** The problematic columns are strictly ascending and are exactly the
    columns meeting one of the four criteria. *)
Lemma problematic_columns_spec (summary : DatasetSummary)
    (missing_df : MissingTable) (t : Q) :
  StronglySorted str_lt (problematic_columns summary missing_df t)
  /\ forall c,
       In c (problematic_columns summary missing_df t)
       <-> missing_over missing_df t c \/ constant_in summary c
           \/ high_cardinality_in summary c \/ low_variation_in summary c.
Proof.
  unfold problematic_columns.
  destruct (set_update_spec (problematic_missing_cols missing_df t) []
              (NoDup_nil _)) as [N0 I0].
  destruct (set_update_spec (constant_cols summary) _ N0) as [N1 I1].
  destruct (set_update_spec (high_card_cols summary) _ N1) as [N2 I2].
  destruct (set_update_spec (low_var_cols summary) _ N2) as [N3 I3].
  cbv zeta. split; [apply sorted_strict; exact N3 |].
  intros c. rewrite In_sorted, I3, I2, I1, I0.
  rewrite In_problematic_missing_cols, In_constant_cols, In_high_card_cols,
    In_low_var_cols.
  simpl. tauto.
Qed.

Lemma flags_filter_spec (items : Dict JValue) (k : string) (v : JValue) :
  In (k, v)
     (filter (fun kv => negb (existsb (String.eqb (fst kv))
                                ["quality_score"; "max_missing_share"]))
             items)
  <-> In (k, v) items /\ k <> "quality_score" /\ k <> "max_missing_share".
Proof.
  rewrite filter_In. cbn [fst existsb].
  rewrite negb_true_iff, !orb_false_iff, !String.eqb_neq. tauto.
Qed.

(** C10: the summary.json of a run with --json-summary lists as
    problematic_columns, in ascending order and without repetition, exactly
    the columns whose missing share reaches [min_missing_share], the
    constant columns, the non-numeric columns with more than 50 distinct
    values and the numeric columns with a standard deviation below 1e-6
    over more than one value; its "flags" object holds every entry of the
    quality flags but quality_score and max_missing_share. *)
Theorem summary_json_contents (world : World) (core : Core) (a : ReportArgs)
    (df : DataFrame) :
  mkdir world (PathOf (out_dir a)) = inr tt ->
  path_exists world (PathOf (path a)) = inr true ->
  read_csv world (PathOf (path a)) (sep a) (encoding a) = inr df ->
  json_summary a = true ->
  let summary := core_summarize_dataset core df in
  let missing_df := core_missing_table core df in
  let flags := core_compute_quality_flags core summary missing_df in
  exists cols entries,
    content_at (fst (report world core a))
      (PathJoin (PathOf (out_dir a)) "summary.json")
    = Some (JsonFile
              (JObj [ ("n_rows", JInt (Z.of_nat (n_rows summary)));
                      ("n_cols", JInt (Z.of_nat (n_cols summary)));
                      ("quality_score", JNum (round4 (quality_score flags)));
                      ("problematic_columns", JArr (map JStr cols));
                      ("flags", JObj entries) ]))
    /\ StronglySorted str_lt cols
    /\ (forall c,
           In c cols
           <-> missing_over missing_df (min_missing_share a) c
               \/ constant_in summary c
               \/ high_cardinality_in summary c
               \/ low_variation_in summary c)
    /\ (forall k v,
           In (k, v) entries
           <-> In (k, v) (flags_items flags)
               /\ k <> "quality_score" /\ k <> "max_missing_share").
Proof.
  intros Hmk Hex Hread Hjson summary missing_df flags.
  exists (problematic_columns summary missing_df (min_missing_share a)).
  eexists. split; [| split; [| split]].
  - rewrite (report_loaded world core a df Hmk Hex Hread). cbn [fst].
    unfold loaded_run. rewrite Hjson.
    destruct (missing_empty (core_missing_table core df)),
             (corr_empty (core_correlation_matrix core df));
      cbn [app content_at path_eqb]; rewrite ?String.eqb_refl; reflexivity.
  - apply problematic_columns_spec.
  - apply problematic_columns_spec.
  - intros k v. apply flags_filter_spec.
Qed.

Example sample_problematic_columns :
  problematic_columns (summarize_dataset (fun x => x) sample_df)
    (missing_table sample_df) (1 # 10)
  = ["age"; "city"].
Proof. reflexivity. Qed.

Lemma summary_json_contents_witness :
  exists cols entries,
    content_at
      (fst (report (world_reading (inr sample_df)) sample_core
              (json_args "people.csv")))
      (PathJoin (PathOf "reports") "summary.json")
    = Some (JsonFile
              (JObj [ ("n_rows", JInt 4);
                      ("n_cols", JInt 3);
                      ("quality_score",
                         JNum (round4
                                 (quality_score
                                    (compute_quality_flags sample_config
                                       (summarize_dataset (fun x => x) sample_df)
                                       (missing_table sample_df)))));
                      ("problematic_columns", JArr (map JStr cols));
                      ("flags", JObj entries) ]))
    /\ StronglySorted str_lt cols
    /\ (forall c,
           In c cols
           <-> missing_over (missing_table sample_df) (1 # 10) c
               \/ constant_in (summarize_dataset (fun x => x) sample_df) c
               \/ high_cardinality_in (summarize_dataset (fun x => x) sample_df) c
               \/ low_variation_in (summarize_dataset (fun x => x) sample_df) c)
    /\ (forall k v,
           In (k, v) entries
           <-> In (k, v)
                 (flags_items
                    (compute_quality_flags sample_config
                       (summarize_dataset (fun x => x) sample_df)
                       (missing_table sample_df)))
               /\ k <> "quality_score" /\ k <> "max_missing_share").
Proof.
  exact (summary_json_contents (world_reading (inr sample_df)) sample_core
           (json_args "people.csv") sample_df eq_refl eq_refl eq_refl eq_refl).
Defined.

(** * Further properties *)

(** ** The extension check *)

Lemma substring_whole (s : string) : substring 0 (String.length s) s = s.
Proof. induction s as [| c s IH]; simpl; [| rewrite IH]; reflexivity. Qed.

Lemma substring_after (p s : string) :
  substring (String.length p) (String.length s) (p ++ s)%string = s.
Proof.
  induction p as [| c p IH]; simpl; [apply substring_whole | exact IH].
Qed.

Lemma length_append (p s : string) :
  String.length (p ++ s)%string = (String.length p + String.length s)%nat.
Proof. induction p as [| c p IH]; simpl; [| rewrite IH]; reflexivity. Qed.

Lemma substring_split (s : string) :
  forall k, (k <= String.length s)%nat ->
    s = (substring 0 k s ++ substring k (String.length s - k) s)%string.
Proof.
  induction s as [| c s IH]; intros [| k] Hk; simpl in *.
  - reflexivity.
  - lia.
  - rewrite substring_whole. reflexivity.
  - f_equal. apply IH. lia.
Qed.

(** [endswith] is the suffix test: the text is some prefix followed by
    the suffix. *)
Lemma endswith_iff (s suffix : string) :
  endswith s suffix = true <-> exists p, s = (p ++ suffix)%string.
Proof.
  unfold endswith. rewrite andb_true_iff, Nat.leb_le, String.eqb_eq. split.
  - intros [Hle Hsub].
    exists (substring 0 (String.length s - String.length suffix) s).
    pose proof (substring_split s (String.length s - String.length suffix))
      as Hsplit.
    replace (String.length s - (String.length s - String.length suffix))%nat
      with (String.length suffix) in Hsplit by lia.
    rewrite Hsub in Hsplit. apply Hsplit. lia.
  - intros [p ->]. rewrite length_append. split; [lia |].
    replace (String.length p + String.length suffix - String.length suffix)%nat
      with (String.length p) by lia.
    apply substring_after.
Qed.

Lemma endswith_any_csv_txt (s : string) :
  endswith_any s [".csv"; ".txt"] = true
  <-> exists p, s = (p ++ ".csv")%string \/ s = (p ++ ".txt")%string.
Proof.
  unfold endswith_any. cbn [existsb].
  rewrite orb_false_r, orb_true_iff, !endswith_iff. split.
  - intros [[p H] | [p H]]; exists p; [left | right]; exact H.
  - intros [p [H | H]]; [left | right]; exists p; exact H.
Qed.

(** X1: the CSV route answers "Only CSV files are allowed" exactly when the
    file name is not some text followed by ".csv" or ".txt"; the test is
    case-sensitive and looks at nothing but the name. *)
Theorem only_csv_detail_iff (pd : Pandas) (core : Core) (file : UploadFile) :
  quality_from_csv pd core file
  = HTTPException 400 "Only CSV files are allowed"
  <-> ~ (exists p, filename file = (p ++ ".csv")%string
                   \/ filename file = (p ++ ".txt")%string).
Proof.
  rewrite <- endswith_any_csv_txt. unfold quality_from_csv.
  destruct (endswith_any (filename file) [".csv"; ".txt"]); cbn [negb].
  - split; [| intros H; exfalso; apply H; reflexivity].
    destruct (contents <-! read file;; pd_read_csv pd contents "," "utf-8")
      as [e | df].
    + cbn. intros H. discriminate H.
    + destruct (df_empty df); intros H; discriminate H.
  - split; [intros _ H; discriminate H | reflexivity].
Qed.

Example upper_case_extension_refused :
  quality_from_csv (pandas_giving (inr sample_df)) sample_core
    (sample_upload "DATA.CSV")
  = HTTPException 400 "Only CSV files are allowed".
Proof. reflexivity. Qed.

(** X2: a JSON body is returned only to a request that passes the
    file-name check of its route and whose input parses into a frame that
    is not empty, and the body is then the flags computed from the summary
    and the missing table of that frame. *)
Theorem flags_returned_only_if (pd : Pandas) (core : Core) (req : Request)
    (content : JValue) :
  handle pd core req = JSONResponse content ->
  extension_ok req = true
  /\ exists df, parsed pd req = inr df /\ df_empty df = false
                /\ content = flags_body core df.
Proof.
  destruct req as [data | file]; cbn [handle extension_ok parsed].
  - unfold quality_from_dataframe.
    destruct (cols <-! dict_get data "columns";; pd_DataFrame pd cols)
      as [e | df]; [intros H; discriminate H |].
    destruct (df_empty df) eqn:He; [intros H; discriminate H |].
    unfold quality_response, flags_body. intros H.
    split; [reflexivity |]. exists df. repeat split; [exact He | congruence].
  - unfold quality_from_csv.
    destruct (endswith_any (filename file) [".csv"; ".txt"]); cbn [negb];
      [| intros H; discriminate H].
    destruct (contents <-! read file;; pd_read_csv pd contents "," "utf-8")
      as [e | df]; [intros H; discriminate H |].
    destruct (df_empty df) eqn:He; [intros H; discriminate H |].
    unfold quality_response, flags_body. intros H.
    split; [reflexivity |]. exists df. repeat split; [exact He | congruence].
Qed.

Lemma flags_returned_only_if_witness :
  extension_ok (PostQualityFromCsv (sample_upload "people.csv")) = true
  /\ exists df,
       parsed (pandas_giving (inr sample_df))
         (PostQualityFromCsv (sample_upload "people.csv")) = inr df
       /\ df_empty df = false
       /\ flags_body sample_core sample_df = flags_body sample_core df.
Proof.
  apply (flags_returned_only_if (pandas_giving (inr sample_df)) sample_core).
  reflexivity.
Defined.

(** X3: the answer "Empty dataset" is given exactly to a request that
    passes the file-name check and parses into a frame without rows or
    without columns. *)
Theorem empty_dataset_detail_iff (pd : Pandas) (core : Core) (req : Request) :
  handle pd core req = HTTPException 400 "Empty dataset"
  <-> extension_ok req = true
      /\ exists df, parsed pd req = inr df
                    /\ (index_len df = 0%nat \/ df_columns df = []).
Proof.
  assert (Hempty : forall df,
             df_empty df = true <-> index_len df = 0%nat \/ df_columns df = []).
  { intros df. unfold df_empty.
    rewrite orb_true_iff, !Nat.eqb_eq, length_zero_iff_nil. reflexivity. }
  destruct req as [data | file]; cbn [handle extension_ok parsed].
  - unfold quality_from_dataframe.
    destruct (cols <-! dict_get data "columns";; pd_DataFrame pd cols)
      as [e | df].
    + split; [cbn; intros H; discriminate H |].
      intros [_ [df [H _]]]; discriminate H.
    + destruct (df_empty df) eqn:He.
      * split; [| reflexivity]. intros _. split; [reflexivity |].
        exists df. split; [reflexivity | apply Hempty; exact He].
      * split; [intros H; discriminate H |].
        intros [_ [df' [H Hd]]]. apply Hempty in Hd. congruence.
  - unfold quality_from_csv.
    destruct (endswith_any (filename file) [".csv"; ".txt"]); cbn [negb].
    2:{ split; [intros H; discriminate H | intros [H _]; discriminate H]. }
    destruct (contents <-! read file;; pd_read_csv pd contents "," "utf-8")
      as [e | df].
    + split; [cbn; intros H; discriminate H |].
      intros [_ [df [H _]]]; discriminate H.
    + destruct (df_empty df) eqn:He.
      * split; [| reflexivity]. intros _. split; [reflexivity |].
        exists df. split; [reflexivity | apply Hempty; exact He].
      * split; [intros H; discriminate H |].
        intros [_ [df' [H Hd]]]. apply Hempty in Hd. congruence.
Qed.

(** X4: two requests that pass their file-name checks and parse into the
    same frame get the same answer, whichever route they take. *)
Theorem same_frame_same_answer (pd : Pandas) (core : Core)
    (r1 r2 : Request) (df : DataFrame) :
  parsed pd r1 = inr df -> parsed pd r2 = inr df ->
  extension_ok r1 = true -> extension_ok r2 = true ->
  handle pd core r1 = handle pd core r2.
Proof.
  assert (Hone : forall r, parsed pd r = inr df -> extension_ok r = true ->
             handle pd core r
             = if df_empty df then HTTPException 400 "Empty dataset"
               else quality_response core df).
  { intros [data | file] Hp Hext; cbn [handle extension_ok parsed] in *.
    - unfold quality_from_dataframe. rewrite Hp. reflexivity.
    - unfold quality_from_csv. rewrite Hext, Hp. reflexivity. }
  intros H1 H2 E1 E2. rewrite (Hone r1 H1 E1), (Hone r2 H2 E2). reflexivity.
Qed.

Lemma same_frame_same_answer_witness :
  handle (pandas_giving (inr sample_df)) sample_core
    (PostQuality [("columns", JObj [])])
  = handle (pandas_giving (inr sample_df)) sample_core
      (PostQualityFromCsv (sample_upload "people.csv")).
Proof.
  apply (same_frame_same_answer _ _ _ _ sample_df); reflexivity.
Defined.

(** ** Loading and the shape of a run *)

(** X5: [_load_csv] returns a frame exactly when [exists()] reports the
    path present and the reader returns one; a path reported missing gives
    the "not found" parameter error with [str(path)], whatever the reader
    would do; an exception of the reader becomes a parameter error with
    its text; an exception of [exists()] itself, raised outside the [try],
    goes through as it is; loading leaves no trace of its own. *)
Theorem load_csv_outcomes (world : World) (p : Path) (sep encoding : string) :
  fst (_load_csv world p sep encoding) = []
  /\ (forall df,
         snd (_load_csv world p sep encoding) = inr df
         <-> path_exists world p = inr true
             /\ read_csv world p sep encoding = inr df)
  /\ (path_exists world p = inr false ->
      snd (_load_csv world p sep encoding)
      = inl (BadParameter ("Файл '" ++ path_text world p ++ "' не найден")))
  /\ (forall exc,
         path_exists world p = inr true ->
         read_csv world p sep encoding = inl exc ->
         snd (_load_csv world p sep encoding)
         = inl (BadParameter ("Не удалось прочитать CSV: " ++ exc_str exc)))
  /\ (forall e,
         path_exists world p = inl e ->
         snd (_load_csv world p sep encoding) = inl (Uncaught e)).
Proof.
  unfold _load_csv.
  destruct (path_exists world p) as [e | [|]]; cbn [negb].
  - cbn [fst snd raise]. split; [reflexivity |]. split.
    + intros df. split; [intros H; discriminate H |].
      intros [H _]; discriminate H.
    + split; [intros H; discriminate H |].
      split; [intros exc H; discriminate H |].
      intros e' H. inversion H; subst. reflexivity.
  - destruct (read_csv world p sep encoding) as [exc | df0];
      cbn [fst snd ret raise].
    + split; [reflexivity |]. split.
      * intros df. split; [intros H; discriminate H |].
        intros [_ H]; discriminate H.
      * split; [intros H; discriminate H |]. split.
        -- intros exc' _ H. inversion H; subst. reflexivity.
        -- intros e H; discriminate H.
    + split; [reflexivity |]. split.
      * intros df. split.
        -- intros H. inversion H; subst. split; reflexivity.
        -- intros [_ H]. inversion H; subst. reflexivity.
      * split; [intros H; discriminate H |]. split.
        -- intros exc _ H; discriminate H.
        -- intros e H; discriminate H.
  - cbn [fst snd raise]. split; [reflexivity |]. split.
    + intros df. split; [intros H; discriminate H |].
      intros [H _]; discriminate H.
    + split; [reflexivity |]. split.
      * intros exc H; discriminate H.
      * intros e H; discriminate H.
Qed.

Lemma load_csv_trace (world : World) (p : Path) (sep encoding : string) :
  _load_csv world p sep encoding
  = ([], snd (_load_csv world p sep encoding)).
Proof.
  unfold _load_csv.
  destruct (path_exists world p) as [e | [|]]; cbn [negb]; try reflexivity.
  destruct (read_csv world p sep encoding); reflexivity.
Qed.

(** A run of [report] stops right after the [mkdir] call with an error, or
    loads its input and goes through every step. *)
Lemma report_cases (world : World) (core : Core) (a : ReportArgs) :
  (exists err,
      report world core a = ([Mkdir (PathOf (out_dir a))], inl err)
      /\ ((exists e, mkdir world (PathOf (out_dir a)) = inl e)
          \/ snd (_load_csv world (PathOf (path a)) (sep a) (encoding a))
             = inl err))
  \/ (exists df,
         mkdir world (PathOf (out_dir a)) = inr tt
         /\ path_exists world (PathOf (path a)) = inr true
         /\ read_csv world (PathOf (path a)) (sep a) (encoding a) = inr df
         /\ report world core a = (loaded_run core a df, inr tt)).
Proof.
  pose proof (report_after_mkdir world core a) as Hrun.
  destruct (mkdir world (PathOf (out_dir a))) as [e | []] eqn:Hmk.
  - left. exists (Uncaught e). split; [exact Hrun | left; exists e; reflexivity].
  - destruct (snd (_load_csv world (PathOf (path a)) (sep a) (encoding a)))
      as [err | df] eqn:Hload.
    + left. exists err. split; [| right; reflexivity].
      apply Hrun. rewrite load_csv_trace, Hload. reflexivity.
    + right. exists df.
      apply (proj1 (proj2 (load_csv_outcomes world _ _ _))) in Hload.
      destruct Hload as [Hex Hread].
      repeat split; try assumption. apply report_loaded; assumption.
Qed.

(** X6: when the [mkdir] call on the output directory raises, [report]
    ends with that exception, which is no parameter error, right after
    the call: the input is not examined, no analyzer runs and nothing is
    written.  [report] completes only if that call returned, [exists()]
    reported the input present and the reader returned a frame. *)
Theorem mkdir_failure_aborts_report (world : World) (core : Core)
    (a : ReportArgs) :
  (forall e, mkdir world (PathOf (out_dir a)) = inl e ->
     report world core a = ([Mkdir (PathOf (out_dir a))], inl (Uncaught e)))
  /\ (snd (report world core a) = inr tt ->
      mkdir world (PathOf (out_dir a)) = inr tt
      /\ path_exists world (PathOf (path a)) = inr true
      /\ exists df,
           read_csv world (PathOf (path a)) (sep a) (encoding a) = inr df).
Proof.
  split.
  - intros e He. pose proof (report_after_mkdir world core a) as Hrun.
    rewrite He in Hrun. exact Hrun.
  - destruct (report_cases world core a)
      as [[err [Hrun _]] | [df [Hmk [Hex [Hread Hrun]]]]];
      rewrite Hrun; cbn [snd]; [intros H; discriminate H |].
    intros _. split; [exact Hmk |]. split; [exact Hex |].
    exists df; exact Hread.
Qed.

Lemma mkdir_failure_aborts_report_witness :
  report world_read_only sample_core (default_args "nowhere.csv")
  = ([Mkdir (PathOf "reports")],
     inl (Uncaught (mkExc "PermissionError" "Permission denied"))).
Proof.
  apply (proj1 (mkdir_failure_aborts_report world_read_only sample_core
                  (default_args "nowhere.csv"))).
  reflexivity.
Defined.


(** X8: in every run of [report], once a file is written or a plot is
    requested no analyzer is called any more; if anything is written or
    plotted, all six analyzers have been called, in source order; and when
    the [mkdir] call raises or the input fails to load, no analyzer is
    called and nothing is written or plotted. *)
Theorem report_analyses_before_output (world : World) (core : Core)
    (a : ReportArgs) :
  analysis_first (fst (report world core a)) = true
  /\ (written (fst (report world core a)) <> []
      \/ viz_targets (fst (report world core a)) <> [] ->
      analyzed (fst (report world core a))
      = [ SummarizeDataset; FlattenSummaryForPrint; MissingTableOf;
          CorrelationMatrixOf; TopCategoriesOf; ComputeQualityFlags ])
  /\ ((exists e, mkdir world (PathOf (out_dir a)) = inl e)
      \/ (exists err,
             snd (_load_csv world (PathOf (path a)) (sep a) (encoding a))
             = inl err) ->
      analyzed (fst (report world core a)) = []
      /\ written (fst (report world core a)) = []
      /\ viz_targets (fst (report world core a)) = []).
Proof.
  destruct (report_cases world core a)
    as [[err [Hrun _]] | [df [Hmk [Hex [Hread Hrun]]]]];
    rewrite Hrun; cbn [fst].
  - split; [reflexivity |]. split.
    + cbn [written viz_targets]. intros [H | H]; exfalso; apply H; reflexivity.
    + intros _. repeat split.
  - split; [| split].
    + unfold loaded_run.
      destruct (missing_empty (core_missing_table core df)),
               (corr_empty (core_correlation_matrix core df)),
               (json_summary a); reflexivity.
    + intros _. unfold loaded_run.
      destruct (missing_empty (core_missing_table core df)),
               (corr_empty (core_correlation_matrix core df)),
               (json_summary a); reflexivity.
    + intros [[e He] | [err Herr]]; [congruence |].
      rewrite (load_csv_succeeds world _ _ _ df Hex Hread) in Herr.
      discriminate Herr.
Qed.


(** ** Problematic columns, further *)

(** X10: raising [min_missing_share] never adds a problematic column. *)
Theorem problematic_columns_antitone (summary : DatasetSummary)
    (missing_df : MissingTable) (t1 t2 : Q) :
  t1 <= t2 ->
  incl (problematic_columns summary missing_df t2)
       (problematic_columns summary missing_df t1).
Proof.
  intros Hle c Hc.
  apply (proj2 (problematic_columns_spec summary missing_df t2)) in Hc.
  apply (proj2 (problematic_columns_spec summary missing_df t1)).
  destruct Hc as [[r [Hr [Hname Hshare]]] | Hrest]; [left | right; exact Hrest].
  exists r. repeat split; try assumption.
  apply (Qle_trans _ t2); assumption.
Qed.

Lemma problematic_columns_antitone_witness :
  incl (problematic_columns (summarize_dataset (fun x => x) sample_df)
          (missing_table sample_df) (1 # 2))
       (problematic_columns (summarize_dataset (fun x => x) sample_df)
          (missing_table sample_df) (1 # 10)).
Proof.
  apply (problematic_columns_antitone _ _ (1 # 10) (1 # 2)). discriminate.
Defined.

Lemma str_lt_irrefl (x : string) : ~ str_lt x x.
Proof.
  rewrite str_lt_iff. intros H.
  apply (String_as_OT.lt_not_eq x x H). reflexivity.
Qed.

(** Two strictly ascending lists with the same members are the same. *)
Lemma ascending_unique (l1 : list string) :
  forall l2,
    StronglySorted str_lt l1 -> StronglySorted str_lt l2 ->
    (forall x, In x l1 <-> In x l2) -> l1 = l2.
Proof.
  induction l1 as [| a l1' IH]; intros [| b l2'] H1 H2 Hmem.
  - reflexivity.
  - exfalso. apply (proj2 (Hmem b)). left; reflexivity.
  - exfalso. apply (proj1 (Hmem a)). left; reflexivity.
  - inversion H1 as [| ? ? Hs1 Ha]; subst.
    inversion H2 as [| ? ? Hs2 Hb]; subst.
    rewrite Forall_forall in Ha, Hb.
    assert (Hab : a = b).
    { destruct (proj1 (Hmem a) (or_introl eq_refl)) as [Hba | Hin2];
        [symmetry; exact Hba |].
      destruct (proj2 (Hmem b) (or_introl eq_refl)) as [Heq | Hin1];
        [exact Heq |].
      exfalso. apply (str_lt_irrefl a).
      apply (str_lt_trans a b a); [apply Ha; exact Hin1 | apply Hb; exact Hin2]. }
    subst b. f_equal. apply IH; try assumption.
    intros x. split; intros Hx.
    + destruct (proj1 (Hmem x) (or_intror Hx)) as [Heq | Hin]; [| exact Hin].
      subst x. exfalso. apply (str_lt_irrefl a). apply Ha; exact Hx.
    + destruct (proj2 (Hmem x) (or_intror Hx)) as [Heq | Hin]; [| exact Hin].
      subst x. exfalso. apply (str_lt_irrefl a). apply Hb; exact Hx.
Qed.

(** X11: the list of problematic columns does not depend on the order of
    the columns in the summary or of the rows in the missing table. *)
Theorem problematic_columns_order_free (s1 s2 : DatasetSummary)
    (m1 m2 : MissingTable) (t : Q) :
  Permutation (columns s1) (columns s2) ->
  Permutation m1 m2 ->
  problematic_columns s1 m1 t = problematic_columns s2 m2 t.
Proof.
  intros Hs Hm.
  destruct (problematic_columns_spec s1 m1 t) as [Hsorted1 Hin1].
  destruct (problematic_columns_spec s2 m2 t) as [Hsorted2 Hin2].
  apply ascending_unique; try assumption.
  intros c. rewrite Hin1, Hin2.
  assert (Hcols : forall col, In col (columns s1) <-> In col (columns s2)).
  { intros col. split; apply Permutation_in;
      [exact Hs | apply Permutation_sym; exact Hs]. }
  assert (Hrows : forall r, In r m1 <-> In r m2).
  { intros r. split; apply Permutation_in;
      [exact Hm | apply Permutation_sym; exact Hm]. }
  unfold missing_over, constant_in, high_cardinality_in, low_variation_in.
  split; intros [[r H] | [[col H] | [[col H] | [col H]]]].
  - left. exists r. rewrite <- Hrows. exact H.
  - right; left. exists col. rewrite <- Hcols. exact H.
  - right; right; left. exists col. rewrite <- Hcols. exact H.
  - right; right; right. exists col. rewrite <- Hcols. exact H.
  - left. exists r. rewrite Hrows. exact H.
  - right; left. exists col. rewrite Hcols. exact H.
  - right; right; left. exists col. rewrite Hcols. exact H.
  - right; right; right. exists col. rewrite Hcols. exact H.
Qed.

Lemma problematic_columns_order_free_witness :
  problematic_columns (summarize_dataset (fun x => x) sample_df)
    (missing_table sample_df) (1 # 10)
  = problematic_columns (summarize_dataset (fun x => x) sample_df)
      (rev (missing_table sample_df)) (1 # 10).
Proof.
  apply problematic_columns_order_free.
  - apply Permutation_refl.
  - apply Permutation_rev.
Defined.

(** ** The text of the report *)



(** ** No artefact overwrites another *)

(** X14: within one run [report] writes no path twice. *)
Theorem report_writes_distinct (world : World) (core : Core) (a : ReportArgs) :
  NoDup (written (fst (report world core a))).
Proof.
  destruct (report_cases world core a)
    as [[err [Hrun _]] | [df [Hmk [Hex [Hread Hrun]]]]];
    rewrite Hrun; cbn [fst].
  - constructor.
  - unfold loaded_run.
    destruct (missing_empty (core_missing_table core df)),
             (corr_empty (core_correlation_matrix core df)),
             (json_summary a);
      cbn [app written];
      repeat (constructor;
              [cbn [In]; intros H;
               repeat (destruct H as [H | H]; [discriminate H |]);
               contradiction |]);
      constructor.
Qed.
